(** * Real-time distribution pipeline of the streaming service

    A shallow embedding of the three services of [streaming-service]:

    - [RedisService]      (services/redisService.js): the cache store and bus;
    - [MarketDataService] (services/marketDataService.js): the aggregator;
    - [WebSocketService]  (services/websocketService.js) and the socket
      handlers of the entry point (index.js): the connection registry and
      the router.

    JavaScript [Map]s are finite maps ([gmap]), [Set]s are finite sets
    ([gset]); instants ([Date.now()]) are integers in milliseconds; an
    [async] method is a state-passing function, the awaited calls being run
    in program order. *)

From Stdlib Require Import ZArith QArith Qround Qminmax String List Lia Lqa.
From stdpp Require Import gmap strings list fin_maps fin_sets.

Local Open Scope Z_scope.
Local Open Scope string_scope.

(** ** JavaScript values *)

(** The values that [JSON.parse] can return. Numbers are exact rationals. *)
#[local] Unset Elimination Schemes.
Inductive Json : Type :=
| JNull
| JBool (b : bool)
| JNum (n : Q)
| JStr (s : string)
| JArr (items : list Json)
| JObj (fields : list (string * Json)).
#[local] Set Elimination Schemes.

(** JavaScript truthiness ([if (v)], [v && ...], [v ? a : b]). *)
Definition truthy (v : Json) : bool :=
  match v with
  | JNull => false
  | JBool b => b
  | JNum n => negb (Qeq_bool n 0)
  | JStr s => negb (String.eqb s "")
  | JArr _ => true
  | JObj _ => true
  end.

Definition is_null (v : Json) : bool :=
  match v with JNull => true | _ => false end.

(** The argument of an inbound [subscribe] / [unsubscribe] /
    [request-initial-data] message. The transport contract makes it a list
    of strings; a viewer can send anything else. *)
Inductive Payload : Type :=
| PArray (symbols : list string)
| PString (s : string)
| PNumber (n : Z)
| PBoolean (b : bool)
| PObject (fields : list (string * string))
| PNull
| PUndefined.

(** [Array.isArray]. *)
Definition isArray (p : Payload) : bool :=
  match p with PArray _ => true | _ => false end.

(** ** Records of the data model *)

(** The object returned by [generateMockMarketData]. *)
Record MarketSample : Type := mkMarketSample {
  ms_symbol : string;
  ms_timestamp : Z;
  open_price : Q;
  high_price : Q;
  low_price : Q;
  close_price : Q;
  volume : Z;
  change : Q;
  change_percent : Q;
  is_market_open : bool
}.

(** [combinedData] of [updateSymbolData]. A facet that is [null] in the
    source is [JNull] here. *)
Record AggregatedRecord : Type := mkAggregatedRecord {
  symbol : string;
  timestamp : Z;
  market : Json;
  technical : Json;
  sentiment : Json;
  lastUpdated : Z
}.

(** ** Outbound events *)

Inductive Event : Type :=
| connection_established (clientId : string) (at_time : Z)
| subscription_confirmed (symbols : list string) (at_time : Z)
| unsubscription_confirmed (symbols : list string) (at_time : Z)
| market_data (sym : string) (data : option AggregatedRecord) (at_time : option Z)
| technical_update (sym : string) (payload : Json) (at_time : Z)
| sentiment_update (sym : string) (payload : Json) (at_time : Z)
| heartbeat (at_time : Z) (connections : nat).

(** Where an [emit] goes: [socket.emit], [io.to(room).emit], [io.emit]. *)
Inductive Target : Type :=
| ToSocket (sid : string)
| ToRoom (room : string)
| ToAll.

Definition Emit : Type := (Target * Event)%type.

Definition is_market_data (e : Event) : bool :=
  match e with market_data _ _ _ => true | _ => false end.

(** ** The connection registry: [WebSocketService] *)

(** [clientInfo] of [handleConnection]. *)
Record ClientInfo : Type := mkClientInfo {
  id : string;
  connectedAt : Z;
  client_subscriptions : gset string;
  lastActivity : Z
}.

(** The state the service owns ([connectedClients], [subscriptions]) and
    the part of the socket server [io] that it drives: the room membership
    relation, a set of pairs (socket id, room). *)
Record WebSocketService : Type := mkWebSocketService {
  io : gset (string * string);
  connectedClients : gmap string ClientInfo;
  subscriptions : gmap string (gset string)
}.

(** [new WebSocketService(io, ...)] on a server without sockets. *)
Definition empty_service : WebSocketService :=
  {| io := ∅; connectedClients := ∅; subscriptions := ∅ |}.

(** [`market-${symbol}`] *)
Definition room_of (symbol : string) : string := "market-" ++ symbol.

(** [socket.join(room)] and [socket.leave(room)] *)
Definition join (sid room : string) (r : gset (string * string)) :
  gset (string * string) := {[ (sid, room) ]} ∪ r.

Definition leave (sid room : string) (r : gset (string * string)) :
  gset (string * string) := r ∖ {[ (sid, room) ]}.

Definition in_room (st : WebSocketService) (sid room : string) : Prop :=
  (sid, room) ∈ io st.

(** The interest set of a connection: the [subscriptions] Set of its
    [clientInfo]; a connection without a record has none. *)
Definition interest (st : WebSocketService) (sid : string) : gset string :=
  match connectedClients st !! sid with
  | Some ci => client_subscriptions ci
  | None => ∅
  end.

(** The subscriber index entry of a symbol: [this.subscriptions.get(symbol)]. *)
Definition index (st : WebSocketService) (symbol : string) : gset string :=
  default ∅ (subscriptions st !! symbol).

Definition set_client_subscriptions (f : gset string → gset string)
    (ci : ClientInfo) : ClientInfo :=
  {| id := id ci; connectedAt := connectedAt ci;
     client_subscriptions := f (client_subscriptions ci);
     lastActivity := lastActivity ci |}.

Definition set_lastActivity (now : Z) (ci : ClientInfo) : ClientInfo :=
  {| id := id ci; connectedAt := connectedAt ci;
     client_subscriptions := client_subscriptions ci;
     lastActivity := now |}.

(** [handleConnection(socket)] *)
Definition handleConnection (st : WebSocketService) (sid : string) (now : Z) :
  WebSocketService * list Emit :=
  let clientInfo :=
    {| id := sid; connectedAt := now; client_subscriptions := ∅;
       lastActivity := now |} in
  ({| io := io st;
      connectedClients := <[sid := clientInfo]> (connectedClients st);
      subscriptions := subscriptions st |},
   [(ToSocket sid, connection_established sid now)]).

(** The index update of [handleSubscription]: the entry of the symbol is
    created when it is missing, then the socket id is added to it. *)
Definition index_add (sid symbol : string) (subs : gmap string (gset string)) :
  gmap string (gset string) :=
  alter (λ clients : gset string, {[sid]} ∪ clients) symbol
    (match subs !! symbol with
     | Some _ => subs
     | None => <[symbol := ∅]> subs
     end).

(** The index update of [handleUnsubscription]: the socket id is removed
    from the entry of the symbol, and an entry left empty is deleted. *)
Definition index_remove (sid symbol : string) (subs : gmap string (gset string)) :
  gmap string (gset string) :=
  match subs !! symbol with
  | Some clients =>
      let clients' := clients ∖ {[sid]} in
      if decide (size clients' = 0%nat)
      then delete symbol subs
      else <[symbol := clients']> subs
  | None => subs
  end.

(** The body of the [forEach] of [handleSubscription]. *)
Definition subscribe_symbol (sid : string) (st : WebSocketService)
    (symbol : string) : WebSocketService :=
  {| io := join sid (room_of symbol) (io st);
     connectedClients :=
       alter (set_client_subscriptions (λ s, {[symbol]} ∪ s)) sid
             (connectedClients st);
     subscriptions := index_add sid symbol (subscriptions st) |}.

(** [handleSubscription(socket, symbols)] *)
Definition handleSubscription (st : WebSocketService) (sid : string)
    (symbols : Payload) (now : Z) : WebSocketService * list Emit :=
  match connectedClients st !! sid, symbols with
  | Some _, PArray syms =>
      let st1 := fold_left (subscribe_symbol sid) syms st in
      ({| io := io st1;
          connectedClients := alter (set_lastActivity now) sid (connectedClients st1);
          subscriptions := subscriptions st1 |},
       [(ToSocket sid, subscription_confirmed syms now)])
  | _, _ => (st, [])
  end.

(** The body of the [forEach] of [handleUnsubscription]. *)
Definition unsubscribe_symbol (sid : string) (st : WebSocketService)
    (symbol : string) : WebSocketService :=
  {| io := leave sid (room_of symbol) (io st);
     connectedClients :=
       alter (set_client_subscriptions (λ s, s ∖ {[symbol]})) sid
             (connectedClients st);
     subscriptions := index_remove sid symbol (subscriptions st) |}.

(** [handleUnsubscription(socket, symbols)] *)
Definition handleUnsubscription (st : WebSocketService) (sid : string)
    (symbols : Payload) (now : Z) : WebSocketService * list Emit :=
  match connectedClients st !! sid, symbols with
  | Some _, PArray syms =>
      let st1 := fold_left (unsubscribe_symbol sid) syms st in
      ({| io := io st1;
          connectedClients := alter (set_lastActivity now) sid (connectedClients st1);
          subscriptions := subscriptions st1 |},
       [(ToSocket sid, unsubscription_confirmed syms now)])
  | _, _ => (st, [])
  end.

(** [handleDisconnection(socket)]: the rooms of the interest set are left
    and the client record is deleted; [this.subscriptions] is not touched. *)
Definition handleDisconnection (st : WebSocketService) (sid : string) :
  WebSocketService * list Emit :=
  match connectedClients st !! sid with
  | Some clientInfo =>
      ({| io := fold_left (λ r symbol, leave sid (room_of symbol) r)
                          (elements (client_subscriptions clientInfo)) (io st);
          connectedClients := delete sid (connectedClients st);
          subscriptions := subscriptions st |}, [])
  | None => (st, [])
  end.

(** The operations of the registry, and a run of a sequence of them. *)
Inductive Op : Type :=
| Connect (sid : string) (now : Z)
| Subscribe (sid : string) (symbols : Payload) (now : Z)
| Unsubscribe (sid : string) (symbols : Payload) (now : Z)
| Disconnect (sid : string).

Definition step (st : WebSocketService) (op : Op) : WebSocketService * list Emit :=
  match op with
  | Connect sid now => handleConnection st sid now
  | Subscribe sid symbols now => handleSubscription st sid symbols now
  | Unsubscribe sid symbols now => handleUnsubscription st sid symbols now
  | Disconnect sid => handleDisconnection st sid
  end.

Definition run (ops : list Op) (st : WebSocketService) : WebSocketService :=
  fold_left (λ s op, fst (step s op)) ops st.

(** The socket server hands out a fresh id with each connection: a run is
    well formed when no [Connect] reuses the id of a live connection. *)
Fixpoint well_formed (st : WebSocketService) (ops : list Op) : bool :=
  match ops with
  | [] => true
  | op :: rest =>
      (match op with
       | Connect sid _ => bool_decide (connectedClients st !! sid = None)
       | _ => true
       end) && well_formed (fst (step st op)) rest
  end.

(** The runs in which no connection leaves. *)
Definition no_disconnect (op : Op) : bool :=
  match op with Disconnect _ => false | _ => true end.

(** The consistency of the two sides of the registry. *)
Definition index_consistent (st : WebSocketService) : Prop :=
  ∀ sid symbol, sid ∈ index st symbol ↔ symbol ∈ interest st sid.

(** Rooms follow the interest sets. *)
Definition rooms_consistent (st : WebSocketService) : Prop :=
  ∀ sid symbol, in_room st sid (room_of symbol) ↔ symbol ∈ interest st sid.

(** ** The router: [handleMarketUpdate] *)

(** A message of the [market_updates] channel, after [JSON.parse]:
    [{type, symbol, data}]. *)
Record BusMessage : Type := mkBusMessage {
  msg_type : string;
  msg_symbol : string;
  msg_data : option AggregatedRecord
}.

(** [handleMarketUpdate(data)] *)
Definition handleMarketUpdate (data : BusMessage) (now : Z) : list Emit :=
  match msg_data data with
  | Some record =>
      if String.eqb (msg_type data) "market_data"
         && negb (String.eqb (msg_symbol data) "")
      then
        let room := room_of (msg_symbol data) in
        [(ToRoom room, market_data (msg_symbol data) (Some record) (Some now))]
        ++ (if truthy (technical record)
            then [(ToRoom room, technical_update (msg_symbol data) (technical record) now)]
            else [])
        ++ (if truthy (sentiment record)
            then [(ToRoom room, sentiment_update (msg_symbol data) (sentiment record) now)]
            else [])
      else []
  | None => []
  end.

(** Which sockets an emit reaches. *)
Definition reaches (st : WebSocketService) (sid : string) (t : Target) : bool :=
  match t with
  | ToSocket s => bool_decide (s = sid)
  | ToRoom room => bool_decide ((sid, room) ∈ io st)
  | ToAll => true
  end.

(** The events that a list of emits delivers to one socket, in order. *)
Definition delivered (st : WebSocketService) (sid : string) (out : list Emit) :
  list Event :=
  List.map snd (List.filter (λ e : Emit, reaches st sid (fst e)) out).

(** A connection is routed the updates of a symbol when it is in the room
    of that symbol. *)
Definition subscribed (st : WebSocketService) (sid symbol : string) : Prop :=
  in_room st sid (room_of symbol).

(** ** The socket handlers of the entry point *)

(** [socket.on('subscribe', ...)] *)
Definition on_subscribe (st : WebSocketService) (sid : string) (symbols : Payload) :
  WebSocketService * list Emit :=
  match symbols with
  | PArray syms =>
      ({| io := fold_left (λ r symbol, join sid (room_of symbol) r) syms (io st);
          connectedClients := connectedClients st;
          subscriptions := subscriptions st |}, [])
  | _ => (st, [])
  end.

(** [socket.on('unsubscribe', ...)] *)
Definition on_unsubscribe (st : WebSocketService) (sid : string) (symbols : Payload) :
  WebSocketService * list Emit :=
  match symbols with
  | PArray syms =>
      ({| io := fold_left (λ r symbol, leave sid (room_of symbol) r) syms (io st);
          connectedClients := connectedClients st;
          subscriptions := subscriptions st |}, [])
  | _ => (st, [])
  end.

(** ** The cache store and bus: [RedisService] *)

(** The service object together with the server behind [this.client].
    [link_up] tells whether a command issued on the client succeeds (when it
    is [false] the awaited call throws); [issued] counts the commands
    issued on the client. *)
Record Redis : Type := mkRedis {
  isConnected : bool;
  link_up : bool;
  store : gmap string (string * option Z);
  channel_log : list (string * string);
  listening : list string;
  issued : nat
}.

Module RedisService.

Definition issue (r : Redis) : Redis :=
  {| isConnected := isConnected r; link_up := link_up r; store := store r;
     channel_log := channel_log r; listening := listening r;
     issued := S (issued r) |}.

Definition with_store (s : gmap string (string * option Z)) (r : Redis) : Redis :=
  {| isConnected := isConnected r; link_up := link_up r; store := s;
     channel_log := channel_log r; listening := listening r;
     issued := issued r |}.

(** *** The commands of the client

    [None] stands for a thrown error. The server keeps an absolute expiry
    in milliseconds with a key set by SETEX and no longer serves the key
    once the clock has passed it; SETEX refuses a duration that is not
    positive. *)

Definition client_set (r : Redis) (key value : string) : Redis * option unit :=
  if link_up r
  then (with_store (<[key := (value, None)]> (store r)) (issue r), Some tt)
  else (issue r, None).

Definition client_setEx (r : Redis) (now : Z) (key : string) (seconds : Z)
    (value : string) : Redis * option unit :=
  if link_up r && (0 <? seconds)%Z
  then (with_store (<[key := (value, Some (now + seconds * 1000))]> (store r))
                   (issue r), Some tt)
  else (issue r, None).

Definition live (now : Z) (entry : string * option Z) : bool :=
  match snd entry with
  | Some expiry => (now <=? expiry)%Z
  | None => true
  end.

Definition client_get (r : Redis) (now : Z) (key : string) :
  Redis * option (option string) :=
  if link_up r
  then (issue r,
        Some (match store r !! key with
              | Some entry => if live now entry then Some (fst entry) else None
              | None => None
              end))
  else (issue r, None).

Definition client_del (r : Redis) (key : string) : Redis * option unit :=
  if link_up r
  then (with_store (delete key (store r)) (issue r), Some tt)
  else (issue r, None).

Definition client_publish (r : Redis) (channel message : string) :
  Redis * option unit :=
  if link_up r
  then ({| isConnected := isConnected r; link_up := link_up r; store := store r;
           channel_log := channel_log r ++ [(channel, message)];
           listening := listening r; issued := S (issued r) |}, Some tt)
  else (issue r, None).

Definition client_subscribe (r : Redis) (channel : string) : Redis * option unit :=
  if link_up r
  then ({| isConnected := isConnected r; link_up := link_up r; store := store r;
           channel_log := channel_log r;
           listening := listening r ++ [channel]; issued := S (issued r) |}, Some tt)
  else (issue r, None).

(** *** The methods of the service

    [V] is the type of the stored values with its [null]; [stringify] and
    [parse] are [JSON.stringify] and [JSON.parse] on it, [parse] answering
    [None] where [JSON.parse] throws. *)
Section methods.
Context {V : Type} (null : V) (stringify : V → string) (parse : string → option V).

Definition ok (res : option unit) : bool :=
  match res with Some _ => true | None => false end.

(** [set(key, value, expireInSeconds = null)] *)
Definition set (r : Redis) (now : Z) (key : string) (value : V)
    (expireInSeconds : option Z) : Redis * bool :=
  if isConnected r then
    let serializedValue := stringify value in
    let res :=
      match expireInSeconds with
      | Some seconds =>
          if (seconds =? 0)%Z then client_set r key serializedValue
          else client_setEx r now key seconds serializedValue
      | None => client_set r key serializedValue
      end in
    (fst res, ok (snd res))
  else (r, false).

(** [get(key)] *)
Definition get (r : Redis) (now : Z) (key : string) : Redis * V :=
  if isConnected r then
    let res := client_get r now key in
    (fst res,
     match snd res with
     | Some (Some value) =>
         if String.eqb value "" then null else default null (parse value)
     | Some None => null
     | None => null
     end)
  else (r, null).

(** [del(key)] *)
Definition del (r : Redis) (key : string) : Redis * bool :=
  if isConnected r then
    let res := client_del r key in (fst res, ok (snd res))
  else (r, false).

(** [publish(channel, message)] *)
Definition publish (r : Redis) (channel : string) (message : V) : Redis * bool :=
  if isConnected r then
    let serializedMessage := stringify message in
    let res := client_publish r channel serializedMessage in
    (fst res, ok (snd res))
  else (r, false).

(** [subscribe(channel, callback)] *)
Definition subscribe (r : Redis) (channel : string) : Redis * bool :=
  if isConnected r then
    let res := client_subscribe r channel in (fst res, ok (snd res))
  else (r, false).

End methods.

(** A connectivity failure: the service is not connected, or the call on
    the client throws. *)
Definition failing (r : Redis) : Prop :=
  isConnected r = false ∨ link_up r = false.

Definition healthy (r : Redis) : Prop :=
  isConnected r = true ∧ link_up r = true.

End RedisService.

(** ** The aggregator: [MarketDataService] *)

(** What [axios.get] gives for one request: a response whose body is
    [data], or a rejection (timeout, connection refused, non-2xx status). *)
Inductive Response : Type :=
| Replied (data : Json)
| Rejected.

(** The outcome of a promise under [Promise.allSettled]. *)
Inductive Settled (A : Type) : Type :=
| fulfilled (value : A)
| rejected.
Arguments fulfilled {A} value.
Arguments rejected {A}.

(** The five successive values of [Math.random()] read by
    [generateMockMarketData]. *)
Record Draws : Type := mkDraws {
  u_change : Q;
  u_open : Q;
  u_high : Q;
  u_low : Q;
  u_volume : Q
}.



(** The surroundings of one call: the three endpoints of the backend, the
    random draws, the clock ([Date.now()]) and the local wall time
    ([getHours()], [getMinutes()]). The clock stands still during a call. *)
Record Env : Type := mkEnv {
  market_api : string → Response;
  technical_api : string → Response;
  sentiment_api : string → Response;
  draws : Draws;
  now : Z;
  hours : Z;
  minutes : Z
}.

(** [isMarketOpen()] *)
Definition isMarketOpen (env : Env) : bool :=
  let currentTime := hours env * 100 + minutes env in
  (915 <=? currentTime)%Z && (currentTime <=? 1530)%Z.

(** [Math.round(x * 100) / 100]; [Math.round] rounds halves up. *)
Definition Math_round (x : Q) : Z := Qfloor (x + (1 # 2))%Q.

Definition round2 (x : Q) : Q := (inject_Z (Math_round (x * 100)) / 100)%Q.

(** The table [basePrices]. Only its own keys are looked up: the names that
    a JavaScript object inherits from its prototype are left out. *)
Definition basePrices (symbol : string) : option Q :=
  if String.eqb symbol "NIFTY" then Some 21000%Q
  else if String.eqb symbol "SENSEX" then Some 69000%Q
  else if String.eqb symbol "BANKNIFTY" then Some 45000%Q
  else None.

(** [generateMockMarketData(symbol)] *)
Definition generateMockMarketData (env : Env) (symbol : string) : MarketSample :=
  let basePrice := default 20000%Q (basePrices symbol) in
  let changePercent := ((u_change (draws env) - (1 # 2)) * 4)%Q in
  let currentPrice := (basePrice * (1 + changePercent / 100))%Q in
  let open := (basePrice * (1 + (u_open (draws env) - (1 # 2)) * 2 / 100))%Q in
  let high := (Qmax open currentPrice * (1 + u_high (draws env) * 1 / 100))%Q in
  let low := (Qmin open currentPrice * (1 - u_low (draws env) * 1 / 100))%Q in
  let baseVolume :=
    if String.eqb symbol "NIFTY" then 1000000%Q
    else if String.eqb symbol "SENSEX" then 800000%Q else 1200000%Q in
  let volume := Qfloor (baseVolume * ((8 # 10) + u_volume (draws env) * (4 # 10)))%Q in
  {| ms_symbol := symbol;
     ms_timestamp := now env;
     open_price := round2 open;
     high_price := round2 high;
     low_price := round2 low;
     close_price := round2 currentPrice;
     volume := volume;
     change := round2 (currentPrice - basePrice);
     change_percent := round2 changePercent;
     is_market_open := isMarketOpen env |}.

(** The sample as the JavaScript object that it is. *)
Definition sample_to_json (m : MarketSample) : Json :=
  JObj [ ("symbol", JStr (ms_symbol m));
         ("timestamp", JNum (inject_Z (ms_timestamp m)));
         ("open_price", JNum (open_price m));
         ("high_price", JNum (high_price m));
         ("low_price", JNum (low_price m));
         ("close_price", JNum (close_price m));
         ("volume", JNum (inject_Z (volume m)));
         ("change", JNum (change m));
         ("change_percent", JNum (change_percent m));
         ("is_market_open", JBool (is_market_open m)) ].

(** [fetchMarketData(symbol)] *)
Definition fetchMarketData (env : Env) (symbol : string) : Settled Json :=
  match market_api env symbol with
  | Replied data =>
      if truthy data then fulfilled data
      else fulfilled (sample_to_json (generateMockMarketData env symbol))
  | Rejected => fulfilled (sample_to_json (generateMockMarketData env symbol))
  end.

(** [fetchTechnicalData(symbol)] *)
Definition fetchTechnicalData (env : Env) (symbol : string) : Settled Json :=
  match technical_api env symbol with
  | Replied data => if truthy data then fulfilled data else fulfilled JNull
  | Rejected => fulfilled JNull
  end.

(** [fetchSentimentData(symbol)] *)
Definition fetchSentimentData (env : Env) (symbol : string) : Settled Json :=
  match sentiment_api env symbol with
  | Replied data => if truthy data then fulfilled data else fulfilled JNull
  | Rejected => fulfilled JNull
  end.

(** [status === 'fulfilled' ? value : null] *)
Definition value_or_null (p : Settled Json) : Json :=
  match p with fulfilled value => value | rejected => JNull end.

(** The service: its Redis service, [isRunning], and the [dataUpdated]
    events it has emitted. *)
Record MarketDataService : Type := mkMarketDataService {
  redisService : Redis;
  isRunning : bool;
  dataUpdated : list (string * AggregatedRecord)
}.

Section aggregator.
(** [JSON.stringify] and [JSON.parse] on the cached value (a record, or
    [null]) and [JSON.stringify] on a bus message. *)
Context (stringify : option AggregatedRecord → string)
        (parse : string → option (option AggregatedRecord))
        (stringify_message : BusMessage → string).

Definition cache_key (symbol : string) : string := "market_data:" ++ symbol.

(** [updateSymbolData(symbol)]. No awaited call of its body throws (the
    fetches and the Redis service catch their errors), so the [catch]
    branch, which returns [null], is never taken. *)
Definition updateSymbolData (env : Env) (svc : MarketDataService)
    (symbol : string) : MarketDataService * option AggregatedRecord :=
  let marketData := fetchMarketData env symbol in
  let technicalData := fetchTechnicalData env symbol in
  let sentimentData := fetchSentimentData env symbol in
  let combinedData :=
    {| symbol := symbol;
       timestamp := now env;
       market := value_or_null marketData;
       technical := value_or_null technicalData;
       sentiment := value_or_null sentimentData;
       lastUpdated := now env |} in
  let r1 := fst (RedisService.set stringify (redisService svc) (now env)
                   (cache_key symbol) (Some combinedData) (Some 300)) in
  let r2 := fst (RedisService.publish stringify_message r1 "market_updates"
                   {| msg_type := "market_data"; msg_symbol := symbol;
                      msg_data := Some combinedData |}) in
  ({| redisService := r2; isRunning := isRunning svc;
      dataUpdated := dataUpdated svc ++ [(symbol, combinedData)] |},
   Some combinedData).

(** [getLatestData(symbol)] *)
Definition getLatestData (env : Env) (svc : MarketDataService)
    (symbol : string) : MarketDataService * option AggregatedRecord :=
  let res := RedisService.get None parse (redisService svc) (now env)
               (cache_key symbol) in
  let svc1 := {| redisService := fst res; isRunning := isRunning svc;
                 dataUpdated := dataUpdated svc |} in
  match snd res with
  | Some cachedData =>
      if (now env - lastUpdated cachedData <? 30000)%Z
      then (svc1, Some cachedData)
      else updateSymbolData env svc1 symbol
  | None => updateSymbolData env svc1 symbol
  end.

(** The body of the loop of the [request-initial-data] handler:
    [const data = await getLatestData(symbol); socket.emit('market-data',
    { symbol, data })]. *)
Definition initial_data_step (env : Env) (sid : string)
    (acc : MarketDataService * list Emit) (symbol : string) :
  MarketDataService * list Emit :=
  let res := getLatestData env (fst acc) symbol in
  (fst res, (snd acc ++ [(ToSocket sid, market_data symbol (snd res) None)])%list).

(** [socket.on('request-initial-data', ...)]: one [market-data] event per
    symbol, carrying what [getLatestData] returned. *)
Definition on_request_initial_data (env : Env) (svc : MarketDataService)
    (sid : string) (symbols : Payload) : MarketDataService * list Emit :=
  match symbols with
  | PArray syms => fold_left (initial_data_step env sid) syms (svc, [])
  | _ => (svc, [])
  end.

End aggregator.

(** ** [JSON] on literals

    [JSON.stringify] and [JSON.parse] restricted to the literals [null],
    [true] and [false]; [parse_literal] answers [None] on any other text.
    An instance on which the store can be run on concrete values. *)
Definition stringify_literal (v : Json) : string :=
  match v with
  | JBool true => "true"
  | JBool false => "false"
  | _ => "null"
  end.

Definition parse_literal (s : string) : option Json :=
  if String.eqb s "null" then Some JNull
  else if String.eqb s "true" then Some (JBool true)
  else if String.eqb s "false" then Some (JBool false)
  else None.

(** ** A concrete surrounding

    Every endpoint of the backend is down, [Math.random()] returns 0 five
    times, and the local time is 10:30. *)
Definition backend_down : Env :=
  {| market_api := λ _, Rejected;
     technical_api := λ _, Rejected;
     sentiment_api := λ _, Rejected;
     draws := {| u_change := 0; u_open := 0; u_high := 0; u_low := 0;
                 u_volume := 0 |};
     now := 1000000;
     hours := 10;
     minutes := 30 |}.

(** A cached record, written 10 seconds before the clock of
    [backend_down], and a reader of cached texts that knows the text of
    [null] and the text of that record. *)
Definition cached_nifty : AggregatedRecord :=
  {| symbol := "NIFTY"; timestamp := 990000; market := JObj [];
     technical := JNull; sentiment := JNull; lastUpdated := 990000 |}.

Definition stringify_cached (v : option AggregatedRecord) : string :=
  match v with
  | None => "null"
  | Some record => "record:" ++ symbol record
  end.

Definition parse_cached (s : string) : option (option AggregatedRecord) :=
  if String.eqb s "null" then Some None
  else if String.eqb s "record:NIFTY" then Some (Some cached_nifty)
  else None.

Definition stringify_bus (m : BusMessage) : string :=
  msg_type m ++ ":" ++ msg_symbol m.

(** A service on a connected store that holds [cached_nifty], without
    expiry. *)
Definition warm_service : MarketDataService :=
  {| redisService :=
       {| isConnected := true; link_up := true;
          store := {[ "market_data:NIFTY" := ("record:NIFTY", None) ]};
          channel_log := []; listening := []; issued := 0 |};
     isRunning := true;
     dataUpdated := [] |}.

(** ** Proof tactics *)

(** A closed decidable fact, settled by running its decision procedure. *)
Ltac by_evaluation := apply (bool_decide_unpack _); vm_compute; exact I.



(** * Further parts of the services *)

Local Open Scope Z_scope.
Local Open Scope string_scope.

(** ** Statistics of the registry *)

(** The object returned by [getConnectionStats]. *)
Record ConnectionStats : Type := mkConnectionStats {
  totalConnections : nat;
  symbolSubscriptions : gmap string nat;
  activeConnections : nat
}.

(** [getConnectionStats()]: the number of client records, the number of
    them with an activity in the last five minutes, and the size of every
    entry of the subscriber index. *)
Definition getConnectionStats (st : WebSocketService) (now : Z) : ConnectionStats :=
  let fiveMinutesAgo := now - 5 * 60 * 1000 in
  {| totalConnections := size (connectedClients st);
     symbolSubscriptions := size <$> subscriptions st;
     activeConnections :=
       map_fold (λ (_ : string) (client : ClientInfo) (n : nat),
                   if (fiveMinutesAgo <? lastActivity client)%Z then S n else n)
                0%nat (connectedClients st) |}.

(** The subscriber index covers the interest sets: the half of the
    consistency of the registry that a disconnection keeps. *)
Definition index_covers (st : WebSocketService) : Prop :=
  ∀ sid symbol, symbol ∈ interest st sid → sid ∈ index st symbol.

(** ** The subscription to the bus *)

(** The callback that [setupRedisSubscription] registers on the channel
    [market_updates]: the message is parsed and handed to
    [handleMarketUpdate]; a message that cannot be read is logged and
    dropped. [parse_message] is [JSON.parse] on the text of a message. *)
Definition on_market_updates (parse_message : string → option BusMessage)
    (message : string) (now : Z) : list Emit :=
  match parse_message message with
  | Some data => handleMarketUpdate data now
  | None => []
  end.

(** ** The record of one aggregation *)

(** [combinedData] of [updateSymbolData], as a function of the
    surroundings. *)
Definition combinedData (env : Env) (symbol : string) : AggregatedRecord :=
  {| symbol := symbol;
     timestamp := now env;
     market := value_or_null (fetchMarketData env symbol);
     technical := value_or_null (fetchTechnicalData env symbol);
     sentiment := value_or_null (fetchSentimentData env symbol);
     lastUpdated := now env |}.

(** ** Concrete surroundings, continued *)

(** [backend_down] at another instant. *)
Definition backend_down_at (t : Z) : Env :=
  {| market_api := market_api backend_down;
     technical_api := technical_api backend_down;
     sentiment_api := sentiment_api backend_down;
     draws := draws backend_down;
     now := t;
     hours := hours backend_down;
     minutes := minutes backend_down |}.

(** A reader of cached texts that knows the text of [null] and the text of
    the record aggregated for NIFTY under [backend_down]. *)
Definition parse_aggregated (s : string) : option (option AggregatedRecord) :=
  if String.eqb s "null" then Some None
  else if String.eqb s "record:NIFTY"
       then Some (Some (combinedData backend_down "NIFTY"))
  else None.

(** A reader of bus messages that knows the text of the message published
    for NIFTY under [backend_down]. *)
Definition parse_bus (s : string) : option BusMessage :=
  if String.eqb s "market_data:NIFTY"
  then Some {| msg_type := "market_data"; msg_symbol := "NIFTY";
               msg_data := Some (combinedData backend_down "NIFTY") |}
  else None.

(** A service on a connected and empty store. *)
Definition cold_service : MarketDataService :=
  {| redisService :=
       {| isConnected := true; link_up := true; store := ∅;
          channel_log := []; listening := []; issued := 0 |};
     isRunning := true;
     dataUpdated := [] |}.

(** ** Base values of the synthetic sample *)

(** [basePrices[symbol] || 20000] and the [baseVolume] of
    [generateMockMarketData]. *)
Definition basePrice (symbol : string) : Q := default 20000%Q (basePrices symbol).

Definition baseVolume (symbol : string) : Z :=
  if String.eqb symbol "NIFTY" then 1000000
  else if String.eqb symbol "SENSEX" then 800000 else 1200000.

(** ** More of the cache store *)

Module RedisKeys.

(** The EXISTS command of the client: the number of the given keys that
    the server holds, 0 or 1 for one key; a key past its expiry is not
    held. *)
Definition client_exists (r : Redis) (now : Z) (key : string) :
  Redis * option Z :=
  if link_up r
  then (RedisService.issue r,
        Some (match store r !! key with
              | Some entry => if RedisService.live now entry then 1 else 0
              | None => 0
              end))
  else (RedisService.issue r, None).

(** [exists(key)] *)
Definition exists_ (r : Redis) (now : Z) (key : string) : Redis * bool :=
  if isConnected r then
    let res := client_exists r now key in
    (fst res,
     match snd res with
     | Some result => (result =? 1)%Z
     | None => false
     end)
  else (r, false).

End RedisKeys.

(** A connected and empty store, and a connected store that holds, under
    the key "flag" and without expiry, a text that is not JSON. *)
Definition empty_store : Redis :=
  {| isConnected := true; link_up := true; store := ∅;
     channel_log := []; listening := []; issued := 0 |}.

Definition garbled_store : Redis :=
  {| isConnected := true; link_up := true;
     store := {[ "flag" := ("oops", None) ]};
     channel_log := []; listening := []; issued := 0 |}.

(** ** The cycle of the aggregator *)

Section cycle.
Context (stringify : option AggregatedRecord → string)
        (stringify_message : BusMessage → string).

(** [updateAllSymbols()], given the configured symbols ([this.symbols]).
    [Promise.allSettled] over the updates of the symbols, run here in the
    order of the list: every update writes under the key of its own symbol
    only. *)
Definition updateAllSymbols (env : Env) (symbols : list string)
    (svc : MarketDataService) : MarketDataService :=
  if isRunning svc
  then fold_left
         (λ s symbol, fst (updateSymbolData stringify stringify_message env s symbol))
         symbols svc
  else svc.

(** [stop()] *)
Definition stop (svc : MarketDataService) : MarketDataService :=
  {| redisService := redisService svc; isRunning := false;
     dataUpdated := dataUpdated svc |}.

End cycle.

(** ** Technical indicators *)

(** The result of an indicator: [null], a number, or a value that is not
    a finite number ([NaN], or an infinity: a division by zero). Prices are
    exact rationals, and [period] is a whole number. *)
Inductive Indicator : Type :=
| Null
| NotFinite
| Value (q : Q).



(** The loop of [calculateRSI]: the sums of the rises and of the falls of
    the first [period] changes. The guard of [calculateRSI] keeps the
    indices within the list. *)
Definition gains_losses (prices : list Q) (period : nat) : Q * Q :=
  fold_left
    (λ (acc : Q * Q) (i : nat),
       let change := (nth i prices 0 - nth (i - 1) prices 0)%Q in
       if negb (Qle_bool change 0)
       then ((fst acc + change)%Q, snd acc)
       else (fst acc, (snd acc - change)%Q))
    (seq 1 period) (0%Q, 0%Q).

(** [calculateRSI(prices, period = 14)]. When there is no fall the average
    loss is 0 and the division gives an infinity, for which the index is
    100, or [NaN] when there is no rise either. *)
Definition calculateRSI (prices : list Q) (period : nat) : Indicator :=
  if (length prices <? period + 1)%nat then Null
  else if (period =? 0)%nat then NotFinite
  else
    let gl := gains_losses prices period in
    let avgGain := (fst gl / inject_Z (Z.of_nat period))%Q in
    let avgLoss := (snd gl / inject_Z (Z.of_nat period))%Q in
    if Qeq_bool avgLoss 0
    then if Qeq_bool avgGain 0 then NotFinite else Value (round2 100)
    else
      let rs := (avgGain / avgLoss)%Q in
      let rsi := (100 - 100 / (1 + rs))%Q in
      Value (round2 rsi).
(** * Verification *)

Local Open Scope list_scope.

(** ** JavaScript values *)

Lemma truthy_not_null (v : Json) : truthy v = true → is_null v = false.
Proof. by destruct v. Qed.

(** ** Effect of the registry operations on the three structures *)

Section registry_facts.
Implicit Types (st : WebSocketService) (sid c s x : string).

Lemma interest_lookup st c ci :
  connectedClients st !! c = Some ci → interest st c = client_subscriptions ci.
Proof. unfold interest. by intros ->. Qed.

Lemma interest_unknown st c :
  connectedClients st !! c = None → interest st c = ∅.
Proof. unfold interest. by intros ->. Qed.

Lemma known_subscribe_symbol sid st s c :
  is_Some (connectedClients (subscribe_symbol sid st s) !! c)
  ↔ is_Some (connectedClients st !! c).
Proof.
  simpl. destruct (decide (sid = c)) as [->|Hne].
  - rewrite lookup_alter_eq. apply fmap_is_Some.
  - by rewrite lookup_alter_ne.
Qed.

Lemma interest_subscribe_symbol sid st s c x :
  is_Some (connectedClients st !! sid) →
  x ∈ interest (subscribe_symbol sid st s) c
  ↔ x ∈ interest st c ∨ (c = sid ∧ x = s).
Proof.
  intros [ci Hci]. unfold interest. simpl.
  destruct (decide (sid = c)) as [<-|Hne].
  - rewrite lookup_alter_eq, Hci. simpl. set_solver.
  - rewrite lookup_alter_ne by done.
    destruct (connectedClients st !! c); set_solver.
Qed.

Lemma index_subscribe_symbol sid st s c x :
  c ∈ index (subscribe_symbol sid st s) x
  ↔ c ∈ index st x ∨ (c = sid ∧ x = s).
Proof.
  unfold index. simpl. unfold index_add.
  destruct (decide (s = x)) as [<-|Hne].
  - rewrite lookup_alter_eq.
    destruct (subscriptions st !! s) as [clients|] eqn:Hs.
    + rewrite Hs. simpl. set_solver.
    + rewrite lookup_insert_eq. simpl. set_solver.
  - rewrite lookup_alter_ne by done.
    destruct (subscriptions st !! s) eqn:Hs.
    + set_solver.
    + rewrite lookup_insert_ne by done. set_solver.
Qed.

Lemma io_subscribe_symbol sid st s c r :
  (c, r) ∈ io (subscribe_symbol sid st s)
  ↔ (c, r) ∈ io st ∨ (c = sid ∧ r = room_of s).
Proof. simpl. unfold join. set_solver. Qed.

Lemma known_subscribe_fold sid syms st c :
  is_Some (connectedClients (fold_left (subscribe_symbol sid) syms st) !! c)
  ↔ is_Some (connectedClients st !! c).
Proof.
  revert st. induction syms as [|s syms IH]; intros st; [done|].
  cbn [fold_left]. rewrite IH. apply known_subscribe_symbol.
Qed.

Lemma interest_subscribe_fold sid syms st c x :
  is_Some (connectedClients st !! sid) →
  x ∈ interest (fold_left (subscribe_symbol sid) syms st) c
  ↔ x ∈ interest st c ∨ (c = sid ∧ x ∈ syms).
Proof.
  revert st. induction syms as [|s syms IH]; intros st Hk.
  - cbn [fold_left]. set_solver.
  - cbn [fold_left]. rewrite IH by (by apply known_subscribe_symbol).
    rewrite interest_subscribe_symbol by done. set_solver.
Qed.

Lemma index_subscribe_fold sid syms st c x :
  c ∈ index (fold_left (subscribe_symbol sid) syms st) x
  ↔ c ∈ index st x ∨ (c = sid ∧ x ∈ syms).
Proof.
  revert st. induction syms as [|s syms IH]; intros st.
  - cbn [fold_left]. set_solver.
  - cbn [fold_left]. rewrite IH, index_subscribe_symbol. set_solver.
Qed.

Lemma io_subscribe_fold sid syms st c r :
  (c, r) ∈ io (fold_left (subscribe_symbol sid) syms st)
  ↔ (c, r) ∈ io st ∨ (c = sid ∧ ∃ s, s ∈ syms ∧ r = room_of s).
Proof.
  revert st. induction syms as [|s syms IH]; intros st.
  - cbn [fold_left]. set_solver.
  - cbn [fold_left]. rewrite IH, io_subscribe_symbol. set_solver.
Qed.

Lemma interest_unsubscribe_symbol sid st s c x :
  x ∈ interest (unsubscribe_symbol sid st s) c
  ↔ x ∈ interest st c ∧ ¬ (c = sid ∧ x = s).
Proof.
  unfold interest. simpl.
  destruct (decide (sid = c)) as [<-|Hne].
  - rewrite lookup_alter_eq.
    destruct (connectedClients st !! sid); simpl; set_solver.
  - rewrite lookup_alter_ne by done.
    destruct (connectedClients st !! c); set_solver.
Qed.

Lemma index_unsubscribe_symbol sid st s c x :
  c ∈ index (unsubscribe_symbol sid st s) x
  ↔ c ∈ index st x ∧ ¬ (c = sid ∧ x = s).
Proof.
  unfold index. simpl. unfold index_remove.
  destruct (subscriptions st !! s) as [clients|] eqn:Hs.
  - destruct (decide (size (clients ∖ {[sid]}) = 0%nat)) as [Hz|Hnz].
    + apply size_empty_inv in Hz.
      destruct (decide (s = x)) as [<-|Hne].
      * rewrite lookup_delete_eq, Hs. simpl. set_solver.
      * rewrite lookup_delete_ne by done. set_solver.
    + destruct (decide (s = x)) as [<-|Hne].
      * rewrite lookup_insert_eq, Hs. simpl. set_solver.
      * rewrite lookup_insert_ne by done. set_solver.
  - destruct (decide (s = x)) as [<-|Hne].
    + rewrite Hs. simpl. set_solver.
    + set_solver.
Qed.

Lemma io_unsubscribe_symbol sid st s c r :
  (c, r) ∈ io (unsubscribe_symbol sid st s)
  ↔ (c, r) ∈ io st ∧ ¬ (c = sid ∧ r = room_of s).
Proof. simpl. unfold leave. set_solver. Qed.

Lemma interest_unsubscribe_fold sid syms st c x :
  x ∈ interest (fold_left (unsubscribe_symbol sid) syms st) c
  ↔ x ∈ interest st c ∧ ¬ (c = sid ∧ x ∈ syms).
Proof.
  revert st. induction syms as [|s syms IH]; intros st.
  - cbn [fold_left]. set_solver.
  - cbn [fold_left]. rewrite IH, interest_unsubscribe_symbol. set_solver.
Qed.

Lemma index_unsubscribe_fold sid syms st c x :
  c ∈ index (fold_left (unsubscribe_symbol sid) syms st) x
  ↔ c ∈ index st x ∧ ¬ (c = sid ∧ x ∈ syms).
Proof.
  revert st. induction syms as [|s syms IH]; intros st.
  - cbn [fold_left]. set_solver.
  - cbn [fold_left]. rewrite IH, index_unsubscribe_symbol. set_solver.
Qed.

Lemma io_unsubscribe_fold sid syms st c r :
  (c, r) ∈ io (fold_left (unsubscribe_symbol sid) syms st)
  ↔ (c, r) ∈ io st ∧ ¬ (c = sid ∧ ∃ s, s ∈ syms ∧ r = room_of s).
Proof.
  revert st. induction syms as [|s syms IH]; intros st.
  - cbn [fold_left]. set_solver.
  - cbn [fold_left]. rewrite IH, io_unsubscribe_symbol. set_solver.
Qed.

(** Touching [lastActivity] changes no interest set. *)
Lemma interest_touch st sid now c io' subs' :
  interest {| io := io';
              connectedClients := alter (set_lastActivity now) sid (connectedClients st);
              subscriptions := subs' |} c
  = interest st c.
Proof.
  unfold interest. simpl. destruct (decide (sid = c)) as [<-|Hne].
  - rewrite lookup_alter_eq. by destruct (connectedClients st !! sid).
  - by rewrite lookup_alter_ne.
Qed.

Lemma room_of_inj s1 s2 : room_of s1 = room_of s2 → s1 = s2.
Proof. unfold room_of. intros H. by simplify_eq/=. Qed.

End registry_facts.

(** ** Preservation of the consistency properties *)

Section registry_invariants.
Implicit Types (st : WebSocketService) (sid c s x : string).

Lemma index_consistent_empty : index_consistent empty_service.
Proof. intros c s. unfold index, interest. simpl. by rewrite !lookup_empty. Qed.

Lemma rooms_consistent_empty : rooms_consistent empty_service.
Proof.
  intros c s. unfold in_room, interest. simpl. rewrite lookup_empty. set_solver.
Qed.

Lemma handleSubscription_index_consistent st sid p now :
  index_consistent st → index_consistent (handleSubscription st sid p now).1.
Proof.
  intros Hinv. unfold handleSubscription.
  destruct (connectedClients st !! sid) as [ci|] eqn:Hci; [|done].
  destruct p as [syms| | | | | |]; try done.
  intros c x. cbn [fst]. rewrite interest_touch.
  rewrite interest_subscribe_fold by (by rewrite Hci).
  unfold index at 1. cbn [subscriptions].
  fold (index (fold_left (subscribe_symbol sid) syms st) x).
  rewrite index_subscribe_fold. specialize (Hinv c x). tauto.
Qed.

Lemma handleUnsubscription_index_consistent st sid p now :
  index_consistent st → index_consistent (handleUnsubscription st sid p now).1.
Proof.
  intros Hinv. unfold handleUnsubscription.
  destruct (connectedClients st !! sid) as [ci|] eqn:Hci; [|done].
  destruct p as [syms| | | | | |]; try done.
  intros c x. cbn [fst]. rewrite interest_touch.
  rewrite interest_unsubscribe_fold.
  unfold index at 1. cbn [subscriptions].
  fold (index (fold_left (unsubscribe_symbol sid) syms st) x).
  rewrite index_unsubscribe_fold. specialize (Hinv c x). tauto.
Qed.

(** A socket id is fresh when the server hands it out. *)
Lemma handleConnection_index_consistent st sid now :
  connectedClients st !! sid = None →
  index_consistent st → index_consistent (handleConnection st sid now).1.
Proof.
  intros Hfresh Hinv c x. specialize (Hinv c x).
  unfold index, interest in *. simpl.
  destruct (decide (sid = c)) as [<-|Hne].
  - rewrite lookup_insert_eq. rewrite Hfresh in Hinv. simpl. set_solver.
  - by rewrite lookup_insert_ne.
Qed.

Lemma handleSubscription_rooms_consistent st sid p now :
  rooms_consistent st → rooms_consistent (handleSubscription st sid p now).1.
Proof.
  intros Hinv. unfold handleSubscription.
  destruct (connectedClients st !! sid) as [ci|] eqn:Hci; [|done].
  destruct p as [syms| | | | | |]; try done.
  intros c x. cbn [fst]. rewrite interest_touch.
  rewrite interest_subscribe_fold by (by rewrite Hci).
  unfold in_room. cbn [io]. rewrite io_subscribe_fold.
  specialize (Hinv c x). unfold in_room in Hinv. rewrite Hinv.
  split; (intros [?|[-> Hs]]; [by left|right; split; [done|]]).
  - destruct Hs as (s & Hs & Heq). by apply room_of_inj in Heq as ->.
  - by exists x.
Qed.

Lemma handleUnsubscription_rooms_consistent st sid p now :
  rooms_consistent st → rooms_consistent (handleUnsubscription st sid p now).1.
Proof.
  intros Hinv. unfold handleUnsubscription.
  destruct (connectedClients st !! sid) as [ci|] eqn:Hci; [|done].
  destruct p as [syms| | | | | |]; try done.
  intros c x. cbn [fst]. rewrite interest_touch.
  rewrite interest_unsubscribe_fold.
  unfold in_room. cbn [io]. rewrite io_unsubscribe_fold.
  specialize (Hinv c x). unfold in_room in Hinv. rewrite Hinv.
  split; intros [Hx Hn]; (split; [done|]); intros [-> Hs]; apply Hn; (split; [done|]).
  - by exists x.
  - destruct Hs as (s & Hs & Heq). by apply room_of_inj in Heq as ->.
Qed.

Lemma handleConnection_rooms_consistent st sid now :
  connectedClients st !! sid = None →
  rooms_consistent st → rooms_consistent (handleConnection st sid now).1.
Proof.
  intros Hfresh Hinv c x. specialize (Hinv c x).
  unfold in_room, interest in *. simpl.
  destruct (decide (sid = c)) as [<-|Hne].
  - rewrite lookup_insert_eq. rewrite Hfresh in Hinv. simpl. set_solver.
  - by rewrite lookup_insert_ne.
Qed.

Lemma io_leave_all sid (syms : list string) (r : gset (string * string)) c (room : string) :
  (c, room) ∈ fold_left (λ r symbol, leave sid (room_of symbol) r) syms r
  ↔ (c, room) ∈ r ∧ ¬ (c = sid ∧ ∃ s, s ∈ syms ∧ room = room_of s).
Proof.
  revert r. induction syms as [|s syms IH]; intros r.
  - cbn [fold_left]. set_solver.
  - cbn [fold_left]. rewrite IH. unfold leave. set_solver.
Qed.

Lemma handleDisconnection_rooms_consistent st sid :
  rooms_consistent st → rooms_consistent (handleDisconnection st sid).1.
Proof.
  intros Hinv. unfold handleDisconnection.
  destruct (connectedClients st !! sid) as [ci|] eqn:Hci; [|done].
  intros c x. cbn [fst]. unfold in_room. cbn [io]. rewrite io_leave_all.
  specialize (Hinv c x). unfold in_room in Hinv. rewrite Hinv.
  unfold interest. cbn [connectedClients].
  destruct (decide (sid = c)) as [<-|Hne].
  - rewrite lookup_delete_eq, Hci. split; [|set_solver].
    intros [Hx Hn]. exfalso. apply Hn. split; [done|].
    exists x. by rewrite elem_of_elements.
  - rewrite lookup_delete_ne by done. split; [tauto|].
    intros Hx. split; [done|]. by intros [-> _].
Qed.

(** Disconnection keeps every entry of the subscriber index as it is. *)
Lemma handleDisconnection_index st sid s :
  index (handleDisconnection st sid).1 s = index st s.
Proof.
  unfold handleDisconnection. by destruct (connectedClients st !! sid).
Qed.

Lemma handleDisconnection_interest st sid :
  interest (handleDisconnection st sid).1 sid = ∅.
Proof.
  unfold handleDisconnection, interest.
  destruct (connectedClients st !! sid) eqn:H; cbn [fst connectedClients].
  - by rewrite lookup_delete_eq.
  - by rewrite H.
Qed.

(** Whenever the leaving connection had a subscription, the index keeps
    its id although the connection has no interest set any more. *)
Lemma handleDisconnection_breaks_index st sid s :
  index_consistent st → s ∈ interest st sid →
  sid ∈ index (handleDisconnection st sid).1 s
  ∧ s ∉ interest (handleDisconnection st sid).1 sid.
Proof.
  intros Hinv Hs. rewrite handleDisconnection_index, handleDisconnection_interest.
  split; [by apply Hinv | set_solver].
Qed.

End registry_invariants.

(** ** Runs of the registry *)

Lemma run_cons op ops st : run (op :: ops) st = run ops (step st op).1.
Proof. done. Qed.

Lemma step_rooms_consistent st op :
  well_formed st [op] = true →
  rooms_consistent st → rooms_consistent (step st op).1.
Proof.
  intros Hwf Hinv. destruct op as [sid now|sid p now|sid p now|sid]; cbn [step].
  - apply handleConnection_rooms_consistent; [|done].
    cbn in Hwf. rewrite andb_true_r in Hwf. by apply bool_decide_eq_true in Hwf.
  - by apply handleSubscription_rooms_consistent.
  - by apply handleUnsubscription_rooms_consistent.
  - by apply handleDisconnection_rooms_consistent.
Qed.

Lemma run_rooms_consistent ops st :
  well_formed st ops = true →
  rooms_consistent st → rooms_consistent (run ops st).
Proof.
  revert st. induction ops as [|op ops IH]; intros st Hwf Hinv; [done|].
  rewrite run_cons. cbn [well_formed] in Hwf.
  apply andb_true_iff in Hwf as [Hop Hrest].
  apply IH; [done|]. apply step_rooms_consistent; [|done].
  cbn [well_formed]. by rewrite Hop.
Qed.

Lemma run_index_consistent ops st :
  well_formed st ops = true → forallb no_disconnect ops = true →
  index_consistent st → index_consistent (run ops st).
Proof.
  revert st. induction ops as [|op ops IH]; intros st Hwf Hnd Hinv; [done|].
  rewrite run_cons. cbn [well_formed forallb] in Hwf, Hnd.
  apply andb_true_iff in Hwf as [Hop Hrest].
  apply andb_true_iff in Hnd as [Hnd1 Hnd2].
  apply IH; [done..|].
  destruct op as [sid now|sid p now|sid p now|sid]; cbn [step]; [| | |done].
  - apply handleConnection_index_consistent; [|done].
    by apply bool_decide_eq_true in Hop.
  - by apply handleSubscription_index_consistent.
  - by apply handleUnsubscription_index_consistent.
Qed.

(** ** C1: the subscriber index after a disconnection *)

(** C1. The claim asks that, after any sequence of operations, a connection
    id is in the subscriber index entry of a symbol exactly when the symbol
    is in the interest set of that connection, and that a disconnected id is
    in no entry. [handleDisconnection] leaves the rooms and deletes the
    client record but never touches [this.subscriptions]: after a
    connection, a subscription to NIFTY and the disconnection, the id "c1"
    is still in the entry of NIFTY, while the connection has no record and
    so no interest set. *)
Theorem C1_disconnection_leaves_index_entry :
  let st := run [Connect "c1" 0; Subscribe "c1" (PArray ["NIFTY"]) 1;
                 Disconnect "c1"] empty_service in
  connectedClients st !! "c1" = None
  ∧ "c1" ∈ index st "NIFTY"
  ∧ ("NIFTY" ∉ interest st "c1")
  ∧ ¬ index_consistent st.
Proof.
  intros st.
  assert (Hin : "c1" ∈ index st "NIFTY") by by_evaluation.
  assert (Hout : "NIFTY" ∉ interest st "c1") by by_evaluation.
  split; [by vm_compute|]. split; [done|]. split; [done|].
  intros Hc. by apply Hout, Hc.
Qed.

(** ** C7: subscribing twice *)

Lemma index_add_lookup sid s (m : gmap string (gset string)) k :
  index_add sid s m !! k =
  if decide (s = k) then Some ({[sid]} ∪ default ∅ (m !! s)) else m !! k.
Proof.
  unfold index_add. case_decide as Hk.
  - subst k. rewrite lookup_alter_eq.
    destruct (m !! s) as [clients|] eqn:Hs.
    + by rewrite Hs.
    + by rewrite lookup_insert_eq.
  - rewrite lookup_alter_ne by done.
    destruct (m !! s) as [clients|] eqn:Hs; [done|].
    by rewrite lookup_insert_ne.
Qed.

Lemma index_add_twice sid s (m : gmap string (gset string)) :
  index_add sid s (index_add sid s m) = index_add sid s m.
Proof.
  apply map_eq. intros k. rewrite !index_add_lookup.
  case_decide; [|done]. rewrite decide_True by done. simpl.
  f_equal. set_solver.
Qed.

(** C7. Subscribing a connection to [S] a second time changes neither the
    subscriber index, nor any interest set, nor the rooms: the state after
    two calls of [handleSubscription] with [[S]] is the state after one, up
    to [lastActivity]. *)
Theorem C7_subscribe_idempotent (st : WebSocketService) (sid S : string)
    (now1 now2 : Z) :
  let st1 := (handleSubscription st sid (PArray [S]) now1).1 in
  let st2 := (handleSubscription st1 sid (PArray [S]) now2).1 in
  subscriptions st2 = subscriptions st1
  ∧ (∀ c, interest st2 c = interest st1 c)
  ∧ io st2 = io st1.
Proof.
  unfold handleSubscription.
  destruct (connectedClients st !! sid) as [ci|] eqn:Hci.
  2: { cbn [fst]. by rewrite Hci. }
  cbn [fst fold_left connectedClients subscribe_symbol].
  rewrite !lookup_alter_eq, Hci. cbn [fmap option_fmap option_map fst].
  cbn [io subscriptions connectedClients].
  split; [|split].
  - apply index_add_twice.
  - intros c. unfold interest. cbn [connectedClients].
    destruct (decide (sid = c)) as [<-|Hne].
    + rewrite !lookup_alter_eq, Hci. simpl. set_solver.
    + by rewrite !lookup_alter_ne.
  - unfold join. set_solver.
Qed.

(** ** C8: payloads that are not lists *)

(** C8. When the [symbols] argument is not an array, the two methods of the
    service and the two socket handlers of the entry point return the state
    they were given and emit nothing. Being total functions, they return
    for every payload. *)
Theorem C8_non_list_payload_ignored (st : WebSocketService) (sid : string)
    (p : Payload) (now : Z) :
  isArray p = false →
  handleSubscription st sid p now = (st, [])
  ∧ handleUnsubscription st sid p now = (st, [])
  ∧ on_subscribe st sid p = (st, [])
  ∧ on_unsubscribe st sid p = (st, []).
Proof.
  intros Hp. unfold handleSubscription, handleUnsubscription.
  destruct p; try discriminate Hp;
    by destruct (connectedClients st !! sid).
Qed.

Lemma C8_non_list_payload_ignored_witness :
  let st := (handleConnection empty_service "c1" 0).1 in
  handleSubscription st "c1" (PString "NIFTY") 7 = (st, [])
  ∧ handleUnsubscription st "c1" (PString "NIFTY") 7 = (st, [])
  ∧ on_subscribe st "c1" (PString "NIFTY") = (st, [])
  ∧ on_unsubscribe st "c1" (PString "NIFTY") = (st, []).
Proof.
  apply (C8_non_list_payload_ignored _ "c1" (PString "NIFTY") 7). reflexivity.
Defined.

(** ** C2: routing of a bus notification *)

Lemma delivered_app st sid (out1 out2 : list Emit) :
  delivered st sid (out1 ++ out2) = delivered st sid out1 ++ delivered st sid out2.
Proof. unfold delivered. by rewrite List.filter_app, List.map_app. Qed.

Lemma delivered_room_member st sid room (e : Event) :
  (sid, room) ∈ io st → delivered st sid [(ToRoom room, e)] = [e].
Proof. intros H. unfold delivered. cbn. by rewrite bool_decide_true. Qed.

Lemma delivered_room_stranger st sid room (e : Event) :
  (sid, room) ∉ io st → delivered st sid [(ToRoom room, e)] = [].
Proof. intros H. unfold delivered. cbn. by rewrite bool_decide_false. Qed.

(** What [handleMarketUpdate] emits for a well-typed notification. *)
Lemma handleMarketUpdate_emits (msg : BusMessage) (record : AggregatedRecord) now :
  msg_type msg = "market_data" → msg_symbol msg ≠ "" → msg_data msg = Some record →
  handleMarketUpdate msg now =
    [(ToRoom (room_of (msg_symbol msg)),
      market_data (msg_symbol msg) (Some record) (Some now))]
    ++ (if truthy (technical record)
        then [(ToRoom (room_of (msg_symbol msg)),
               technical_update (msg_symbol msg) (technical record) now)]
        else [])
    ++ (if truthy (sentiment record)
        then [(ToRoom (room_of (msg_symbol msg)),
               sentiment_update (msg_symbol msg) (sentiment record) now)]
        else []).
Proof.
  intros Ht Hs Hd. unfold handleMarketUpdate. rewrite Hd, Ht.
  apply String.eqb_neq in Hs. by rewrite Hs.
Qed.

(** Routing goes by rooms: the members of the room of the symbol get the
    events, in order; the others get nothing. *)
Lemma handleMarketUpdate_by_room st (msg : BusMessage) (record : AggregatedRecord)
    now sid :
  msg_type msg = "market_data" → msg_symbol msg ≠ "" → msg_data msg = Some record →
  (subscribed st sid (msg_symbol msg) →
   delivered st sid (handleMarketUpdate msg now) =
     [market_data (msg_symbol msg) (Some record) (Some now)]
     ++ (if truthy (technical record)
         then [technical_update (msg_symbol msg) (technical record) now] else [])
     ++ (if truthy (sentiment record)
         then [sentiment_update (msg_symbol msg) (sentiment record) now] else []))
  ∧ (¬ subscribed st sid (msg_symbol msg) →
     delivered st sid (handleMarketUpdate msg now) = []).
Proof.
  intros Ht Hs Hd. rewrite (handleMarketUpdate_emits msg record now Ht Hs Hd).
  rewrite !delivered_app. unfold subscribed, in_room. split; intros Hin.
  - rewrite delivered_room_member by done.
    destruct (truthy (technical record)), (truthy (sentiment record));
      rewrite ?delivered_room_member by done; done.
  - rewrite delivered_room_stranger by done.
    destruct (truthy (technical record)), (truthy (sentiment record));
      rewrite ?delivered_room_stranger by done; done.
Qed.

(** C2, as amended. After a well-formed run of the registry, a notification
    of type [market_data] with a non-empty symbol [S] and a record is
    delivered to every connection whose interest set holds [S] as exactly one
    [market-data] event, which carries the whole record and is sent whether
    or not the market facet is null, followed by one [technical-update] when
    the technical facet is truthy and one [sentiment-update] when the
    sentiment facet is truthy; a facet that is sent is not null. A
    connection whose interest set does not hold [S] gets no event. *)
Theorem C2_routing (ops : list Op) (msg : BusMessage) (record : AggregatedRecord)
    (now : Z) (sid : string) :
  well_formed empty_service ops = true →
  msg_type msg = "market_data" → msg_symbol msg ≠ "" → msg_data msg = Some record →
  let st := run ops empty_service in
  let S := msg_symbol msg in
  let got := delivered st sid (handleMarketUpdate msg now) in
  (S ∈ interest st sid →
   got = [market_data S (Some record) (Some now)]
         ++ (if truthy (technical record)
             then [technical_update S (technical record) now] else [])
         ++ (if truthy (sentiment record)
             then [sentiment_update S (sentiment record) now] else []))
  ∧ (S ∉ interest st sid → got = [])
  ∧ (∀ s payload t, technical_update s payload t ∈ got → is_null payload = false)
  ∧ (∀ s payload t, sentiment_update s payload t ∈ got → is_null payload = false).
Proof.
  intros Hwf Ht Hs Hd st S got.
  assert (Hrooms : rooms_consistent st).
  { apply run_rooms_consistent; [done|apply rooms_consistent_empty]. }
  destruct (handleMarketUpdate_by_room st msg record now sid Ht Hs Hd) as [Hin Hout].
  assert (Hgot : ∀ e, e ∈ got →
            e = market_data S (Some record) (Some now)
            ∨ (e = technical_update S (technical record) now
               ∧ truthy (technical record) = true)
            ∨ (e = sentiment_update S (sentiment record) now
               ∧ truthy (sentiment record) = true)).
  { intros e He. destruct (decide (S ∈ interest st sid)) as [Hi|Hi].
    - apply Hrooms in Hi. unfold got in He. rewrite (Hin Hi) in He.
      destruct (truthy (technical record)), (truthy (sentiment record));
        set_solver.
    - assert (Hn : ¬ subscribed st sid S) by (intros H; by apply Hi, Hrooms).
      unfold got in He. rewrite (Hout Hn) in He. set_solver. }
  split; [|split; [|split]].
  - intros Hi. apply Hin. by apply Hrooms.
  - intros Hi. apply Hout. intros H. by apply Hi, Hrooms.
  - intros s payload t He. apply Hgot in He as [He|[[He Htr]|[He _]]];
      try discriminate He.
    injection He as -> -> ->. by apply truthy_not_null.
  - intros s payload t He. apply Hgot in He as [He|[[He _]|[He Htr]]];
      try discriminate He.
    injection He as -> -> ->. by apply truthy_not_null.
Qed.

Lemma C2_routing_witness :
  let ops := [Connect "c1" 0; Subscribe "c1" (PArray ["NIFTY"]) 1;
              Connect "c2" 2; Subscribe "c2" (PArray ["SENSEX"]) 3] in
  let record := {| symbol := "NIFTY"; timestamp := 4; market := JNull;
                   technical := JStr "rsi"; sentiment := JNull;
                   lastUpdated := 4 |} in
  let msg := {| msg_type := "market_data"; msg_symbol := "NIFTY";
                msg_data := Some record |} in
  delivered (run ops empty_service) "c1" (handleMarketUpdate msg 5)
  = [market_data "NIFTY" (Some record) (Some 5);
     technical_update "NIFTY" (JStr "rsi") 5]
  ∧ delivered (run ops empty_service) "c2" (handleMarketUpdate msg 5) = [].
Proof.
  intros ops record msg. split.
  - apply (C2_routing ops msg record 5 "c1"); [reflexivity..|discriminate|reflexivity|].
    by_evaluation.
  - apply (C2_routing ops msg record 5 "c2"); [reflexivity..|discriminate|reflexivity|].
    by_evaluation.
Defined.

(** C2, as stated, fails on its last clause: the [market-data] event is not
    conditioned on the market facet. A record whose market facet is null is
    still delivered to the subscriber. *)
Lemma C2_market_facet_counterexample :
  ¬ (∀ (st : WebSocketService) (msg : BusMessage) (record : AggregatedRecord)
       (now : Z) (sid : string),
       msg_data msg = Some record →
       (∃ e, e ∈ delivered st sid (handleMarketUpdate msg now)
             ∧ is_market_data e = true) →
       is_null (market record) = false).
Proof.
  intros H.
  pose (record := {| symbol := "NIFTY"; timestamp := 4; market := JNull;
                     technical := JNull; sentiment := JNull; lastUpdated := 4 |}).
  pose (msg := {| msg_type := "market_data"; msg_symbol := "NIFTY";
                  msg_data := Some record |}).
  pose (st := run [Connect "c1" 0; Subscribe "c1" (PArray ["NIFTY"]) 1] empty_service).
  specialize (H st msg record 5 "c1" eq_refl).
  assert (Hd : delivered st "c1" (handleMarketUpdate msg 5)
               = [market_data "NIFTY" (Some record) (Some 5)]).
  { apply (handleMarketUpdate_by_room st msg record 5 "c1");
      [reflexivity|discriminate|reflexivity|].
    unfold subscribed, in_room. by_evaluation. }
  discriminate H. exists (market_data "NIFTY" (Some record) (Some 5)).
  rewrite Hd. split; [set_solver|done].
Qed.

(** ** C3: what a subscription emits *)

Section snapshots.
Context (stringify : option AggregatedRecord → string)
        (parse : string → option (option AggregatedRecord))
        (stringify_message : BusMessage → string).



End snapshots.



(** ** C6: the cache store, put then get *)

Section cache_store.
Context {V : Type} (null : V) (stringify : V → string) (parse : string → option V).

Lemma set_healthy_ttl (r : Redis) now key (value : V) (ttl : Z) :
  RedisService.healthy r → (0 < ttl)%Z →
  RedisService.set stringify r now key value (Some ttl)
  = (RedisService.with_store
       (<[key := (stringify value, Some (now + ttl * 1000)%Z)]> (store r))
       (RedisService.issue r), true).
Proof.
  intros [Hc Hl] Httl. unfold RedisService.set. rewrite Hc.
  assert ((ttl =? 0)%Z = false) as -> by lia.
  unfold RedisService.client_setEx. rewrite Hl.
  assert ((0 <? ttl)%Z = true) as -> by lia. done.
Qed.

Lemma get_healthy (r : Redis) now key :
  RedisService.healthy r →
  (RedisService.get null parse r now key).2
  = match store r !! key with
    | Some entry =>
        if RedisService.live now entry
        then if String.eqb entry.1 "" then null else default null (parse entry.1)
        else null
    | None => null
    end.
Proof.
  intros [Hc Hl]. unfold RedisService.get, RedisService.client_get.
  rewrite Hc, Hl. cbn [fst snd].
  destruct (store r !! key) as [entry|]; [|done].
  by destruct (RedisService.live now entry).
Qed.

(** C6. On a connected store, for a value that [JSON] writes and reads back
    and a positive [ttl] in seconds, [set] succeeds, replaces whatever the key
    held by the serialized value with the absolute expiry [now + ttl] and
    leaves the other keys alone; a [get] of the key before that expiry
    returns the value that was stored, and a [get] after it returns [null],
    the not-found answer. *)
Theorem C6_put_then_get (r : Redis) (now : Z) (key : string) (value : V)
    (ttl : Z) :
  RedisService.healthy r → (0 < ttl)%Z →
  parse (stringify value) = Some value → stringify value ≠ "" →
  let r1 := (RedisService.set stringify r now key value (Some ttl)).1 in
  (RedisService.set stringify r now key value (Some ttl)).2 = true
  ∧ store r1 !! key = Some (stringify value, Some (now + ttl * 1000)%Z)
  ∧ (∀ k, k ≠ key → store r1 !! k = store r !! k)
  ∧ (∀ later, (later < now + ttl * 1000)%Z →
       (RedisService.get null parse r1 later key).2 = value)
  ∧ (∀ later, (now + ttl * 1000 < later)%Z →
       (RedisService.get null parse r1 later key).2 = null).
Proof.
  intros Hr Httl Hround Hne r1. unfold r1.
  rewrite (set_healthy_ttl r now key value ttl Hr Httl). cbn [fst snd store].
  assert (Hr1 : RedisService.healthy
                  (RedisService.with_store
                     (<[key := (stringify value, Some (now + ttl * 1000)%Z)]> (store r))
                     (RedisService.issue r))) by exact Hr.
  split; [done|]. split; [apply lookup_insert_eq|].
  split; [intros k Hk; by apply lookup_insert_ne|].
  split; intros later Hlater; rewrite (get_healthy _ later key Hr1);
    cbn [store RedisService.with_store]; rewrite lookup_insert_eq;
    unfold RedisService.live; cbn [fst snd].
  - assert ((later <=? now + ttl * 1000)%Z = true) as -> by lia.
    apply String.eqb_neq in Hne. by rewrite Hne, Hround.
  - assert ((later <=? now + ttl * 1000)%Z = false) as -> by lia. done.
Qed.

End cache_store.

Lemma C6_put_then_get_witness :
  let r := {| isConnected := true; link_up := true; store := ∅;
              channel_log := []; listening := []; issued := 0 |} in
  let r1 := (RedisService.set stringify_literal r 0 "market_data:NIFTY"
               (JBool true) (Some 30)).1 in
  (RedisService.get JNull parse_literal r1 29999 "market_data:NIFTY").2 = JBool true
  ∧ (RedisService.get JNull parse_literal r1 40000 "market_data:NIFTY").2 = JNull.
Proof.
  intros r r1.
  destruct (C6_put_then_get JNull stringify_literal parse_literal r 0
              "market_data:NIFTY" (JBool true) 30)
    as (_ & _ & _ & Hbefore & Hafter).
  - split; reflexivity.
  - lia.
  - reflexivity.
  - discriminate.
  - split; [apply Hbefore; lia | apply Hafter; lia].
Defined.

(** ** C9: connectivity failures of the store *)

Section store_failures.
Context {V : Type} (null : V) (stringify : V → string) (parse : string → option V).

Lemma failing_cases (r : Redis) :
  RedisService.failing r →
  isConnected r = false ∨ (isConnected r = true ∧ link_up r = false).
Proof. intros [H|H]; destruct (isConnected r); auto. Qed.

(** C9, as amended. Under a connectivity failure [set], [del], [publish]
    and [subscribe] return [false], which a success never returns (on a
    healthy store they return [true]), and [get] returns [null], which is
    also what a successful [get] of a missing key returns. No method
    retries: each issues at most one command on the client, and a failed
    call leaves the stored entries and the channel as they were. *)
Theorem C9_failure_semantics (r : Redis) (now : Z) (key channel : string)
    (value : V) (ttl : Z) :
  (RedisService.failing r →
     (RedisService.set stringify r now key value (Some ttl)).2 = false
     ∧ (RedisService.get null parse r now key).2 = null
     ∧ (RedisService.del r key).2 = false
     ∧ (RedisService.publish stringify r channel value).2 = false
     ∧ (RedisService.subscribe r channel).2 = false
     ∧ store (RedisService.set stringify r now key value (Some ttl)).1 = store r
     ∧ store (RedisService.del r key).1 = store r
     ∧ channel_log (RedisService.publish stringify r channel value).1 = channel_log r)
  ∧ (RedisService.healthy r →
     ((0 <= ttl)%Z → (RedisService.set stringify r now key value (Some ttl)).2 = true)
     ∧ (RedisService.del r key).2 = true
     ∧ (RedisService.publish stringify r channel value).2 = true
     ∧ (RedisService.subscribe r channel).2 = true
     ∧ (store r !! key = None → (RedisService.get null parse r now key).2 = null))
  ∧ (issued (RedisService.set stringify r now key value (Some ttl)).1 ≤ S (issued r)
     ∧ issued (RedisService.get null parse r now key).1 ≤ S (issued r)
     ∧ issued (RedisService.del r key).1 ≤ S (issued r)
     ∧ issued (RedisService.publish stringify r channel value).1 ≤ S (issued r)
     ∧ issued (RedisService.subscribe r channel).1 ≤ S (issued r))%nat.
Proof.
  unfold RedisService.set, RedisService.get, RedisService.del,
    RedisService.publish, RedisService.subscribe, RedisService.client_set,
    RedisService.client_setEx, RedisService.client_get, RedisService.client_del,
    RedisService.client_publish, RedisService.client_subscribe.
  split; [|split].
  - intros Hf. apply failing_cases in Hf as [Hc|[Hc Hl]]; rewrite Hc; [done|].
    rewrite Hl. cbn. by destruct (ttl =? 0)%Z.
  - intros [Hc Hl]. rewrite Hc, Hl. cbn [fst snd andb RedisService.ok].
    repeat split; try done.
    + intros Httl. destruct (ttl =? 0)%Z eqn:E; [done|].
      assert ((0 <? ttl)%Z = true) as -> by lia. done.
    + by intros ->.
  - destruct (isConnected r), (link_up r), (ttl =? 0)%Z, (0 <? ttl)%Z;
      cbn; repeat split; lia.
Qed.

End store_failures.

Lemma C9_failure_semantics_witness :
  let down := {| isConnected := false; link_up := false; store := ∅;
                 channel_log := []; listening := []; issued := 0 |} in
  let up := {| isConnected := true; link_up := true; store := ∅;
               channel_log := []; listening := []; issued := 0 |} in
  (RedisService.set stringify_literal down 0 "k" (JBool true) (Some 30)).2 = false
  ∧ (RedisService.set stringify_literal up 0 "k" (JBool true) (Some 30)).2 = true.
Proof.
  intros down up. split.
  - destruct (C9_failure_semantics JNull stringify_literal parse_literal down 0
                "k" "market_updates" (JBool true) 30) as (Hfail & _ & _).
    apply Hfail. left. reflexivity.
  - destruct (C9_failure_semantics JNull stringify_literal parse_literal up 0
                "k" "market_updates" (JBool true) 30) as (_ & Hok & _).
    destruct Hok as (Hset & _); [split; reflexivity|]. apply Hset. lia.
Defined.

(** C9, as stated, fails for [get]: the answer of a [get] on a store that
    is not connected is the answer of a successful [get] of a key that is
    not there. *)
Lemma C9_get_counterexample :
  ¬ (∀ (down up : Redis) (now : Z) (key : string),
       RedisService.failing down → RedisService.healthy up →
       (RedisService.get JNull parse_literal down now key).2
       ≠ (RedisService.get JNull parse_literal up now key).2).
Proof.
  intros H.
  apply (H {| isConnected := false; link_up := false; store := ∅;
              channel_log := []; listening := []; issued := 0 |}
           {| isConnected := true; link_up := true; store := ∅;
              channel_log := []; listening := []; issued := 0 |}
           0 "market_data:NIFTY").
  - by left.
  - by split.
  - reflexivity.
Qed.

(** ** C4: the synthetic fallback sample *)

Lemma Math_round_between (x : Q) (a b : Z) :
  (inject_Z a <= x)%Q → (x <= inject_Z b)%Q → (a <= Math_round x <= b)%Z.
Proof.
  intros Ha Hb. unfold Math_round. split.
  - rewrite <- (Qfloor_Z a). apply Qfloor_resp_le. lra.
  - apply Z.lt_succ_r. unfold Z.succ. rewrite Zlt_Qlt, inject_Z_plus.
    pose proof (Qfloor_le (x + (1 # 2))) as Hfl.
    change (inject_Z 1) with 1%Q. lra.
Qed.

Lemma round2_times_100 (x : Q) :
  (round2 x * 100 == inject_Z (Math_round (x * 100)))%Q.
Proof. unfold round2. field. Qed.

Lemma round2_between (x : Q) (a b : Z) :
  (inject_Z a <= x * 100)%Q → (x * 100 <= inject_Z b)%Q →
  (inject_Z a <= round2 x * 100)%Q ∧ (round2 x * 100 <= inject_Z b)%Q.
Proof.
  intros Ha Hb. destruct (Math_round_between (x * 100) a b Ha Hb) as [H1 H2].
  rewrite Zle_Qle in H1, H2. rewrite round2_times_100. done.
Qed.








(** ** C10: the market facet of an aggregated record *)


Section aggregator_facts.
Context (stringify : option AggregatedRecord → string)
        (parse : string → option (option AggregatedRecord))
        (stringify_message : BusMessage → string).


(** ** C5: the cache-aside read *)

(** C5. [getLatestData] reads the key of the symbol in the store. When the
    read gives a record whose age, [now - lastUpdated], is below 30000 ms,
    this record is returned as it is, and nothing is written or published.
    When the read gives nothing, or a record whose age is 30000 ms or more,
    the call is [updateSymbolData] on the symbol, result and effects. *)
Theorem C5_getLatestData_cache_aside (env : Env) (svc : MarketDataService)
    (symbol : string) :
  let res := RedisService.get None parse (redisService svc) (now env)
               (cache_key symbol) in
  let svc1 := {| redisService := res.1; isRunning := isRunning svc;
                 dataUpdated := dataUpdated svc |} in
  (∀ cached, res.2 = Some cached → (now env - lastUpdated cached < 30000)%Z →
     getLatestData stringify parse stringify_message env svc symbol
     = (svc1, Some cached))
  ∧ (∀ cached, res.2 = Some cached → (30000 <= now env - lastUpdated cached)%Z →
     getLatestData stringify parse stringify_message env svc symbol
     = updateSymbolData stringify stringify_message env svc1 symbol)
  ∧ (res.2 = None →
     getLatestData stringify parse stringify_message env svc symbol
     = updateSymbolData stringify stringify_message env svc1 symbol)
  ∧ store (redisService svc1) = store (redisService svc)
  ∧ channel_log (redisService svc1) = channel_log (redisService svc).
Proof.
  intros res svc1. unfold getLatestData. fold res. fold svc1.
  split; [|split; [|split]].
  - intros cached -> Hage.
    by assert ((now env - lastUpdated cached <? 30000)%Z = true) as -> by lia.
  - intros cached -> Hage.
    by assert ((now env - lastUpdated cached <? 30000)%Z = false) as -> by lia.
  - by intros ->.
  - unfold svc1, res, RedisService.get, RedisService.client_get.
    cbn [redisService].
    by destruct (isConnected (redisService svc)), (link_up (redisService svc)).
Qed.

(** The two cases of the read, from the content of the store: a live entry
    of a record younger than 30 seconds is served from the cache; an entry
    past its expiry leads to a refresh. *)
Lemma getLatestData_served_from_cache (env : Env) (svc : MarketDataService)
    (symbol : string) (cached : AggregatedRecord) (expiry : option Z) :
  RedisService.healthy (redisService svc) →
  store (redisService svc) !! cache_key symbol
  = Some (stringify (Some cached), expiry) →
  RedisService.live (now env) (stringify (Some cached), expiry) = true →
  parse (stringify (Some cached)) = Some (Some cached) →
  stringify (Some cached) ≠ "" →
  (now env - lastUpdated cached < 30000)%Z →
  (getLatestData stringify parse stringify_message env svc symbol).2 = Some cached.
Proof.
  intros [Hc Hl] Hstore Hlive Hround Hne Hage.
  unfold getLatestData, RedisService.get, RedisService.client_get.
  rewrite Hc, Hl. cbn [fst snd]. rewrite Hstore, Hlive. cbn [fst].
  apply String.eqb_neq in Hne. rewrite Hne, Hround. simpl.
  by assert ((now env - lastUpdated cached <? 30000)%Z = true) as -> by lia.
Qed.

Lemma getLatestData_refreshes_expired (env : Env) (svc : MarketDataService)
    (symbol text : string) (expiry : Z) :
  RedisService.healthy (redisService svc) →
  store (redisService svc) !! cache_key symbol = Some (text, Some expiry) →
  (expiry < now env)%Z →
  (getLatestData stringify parse stringify_message env svc symbol).2
  = (updateSymbolData stringify stringify_message env
       {| redisService := RedisService.issue (redisService svc);
          isRunning := isRunning svc; dataUpdated := dataUpdated svc |} symbol).2.
Proof.
  intros [Hc Hl] Hstore Hexp.
  unfold getLatestData, RedisService.get, RedisService.client_get.
  rewrite Hc, Hl. cbn [fst snd]. rewrite Hstore.
  unfold RedisService.live. cbn [snd].
  by assert ((now env <=? expiry)%Z = false) as -> by lia.
Qed.

End aggregator_facts.

Lemma C5_getLatestData_cache_aside_witness :
  (getLatestData stringify_cached parse_cached stringify_bus backend_down
     warm_service "NIFTY").2 = Some cached_nifty
  ∧ (getLatestData stringify_cached parse_cached stringify_bus backend_down
       warm_service "SENSEX").2
    = (updateSymbolData stringify_cached stringify_bus backend_down
         {| redisService := RedisService.issue (redisService warm_service);
            isRunning := true; dataUpdated := [] |} "SENSEX").2.
Proof.
  split.
  - destruct (C5_getLatestData_cache_aside stringify_cached parse_cached
                stringify_bus backend_down warm_service "NIFTY")
      as (Hfresh & _).
    rewrite (Hfresh cached_nifty); [reflexivity|reflexivity|].
    vm_compute. reflexivity.
  - destruct (C5_getLatestData_cache_aside stringify_cached parse_cached
                stringify_bus backend_down warm_service "SENSEX")
      as (_ & _ & Hmiss & _).
    rewrite Hmiss; reflexivity.
Defined.


(** * Further properties *)

(** ** The registry *)

Lemma handleSubscription_effect (st : WebSocketService) (sid : string)
    (syms : list string) (now : Z) :
  is_Some (connectedClients st !! sid) →
  let st' := (handleSubscription st sid (PArray syms) now).1 in
  ∀ c x,
    (x ∈ interest st' c ↔ x ∈ interest st c ∨ (c = sid ∧ x ∈ syms))
    ∧ (c ∈ index st' x ↔ c ∈ index st x ∨ (c = sid ∧ x ∈ syms))
    ∧ (in_room st' c (room_of x) ↔ in_room st c (room_of x) ∨ (c = sid ∧ x ∈ syms)).
Proof.
  intros [ci Hci] st' c x. unfold st', handleSubscription. rewrite Hci.
  cbn [fst]. rewrite interest_touch. split; [|split].
  - apply interest_subscribe_fold. by rewrite Hci.
  - apply (index_subscribe_fold sid syms st c x).
  - unfold in_room. cbn [io]. rewrite io_subscribe_fold.
    split; (intros [?|[-> Hs]]; [by left|right; split; [done|]]).
    + destruct Hs as (s & Hs & Heq). by apply room_of_inj in Heq as ->.
    + by exists x.
Qed.


(** X1. For a connected client, [handleSubscription] with a list of
    symbols adds exactly the listed symbols for that connection: the
    interest sets, the subscriber index and the rooms of every other
    connection, and the other symbols of this one, are as before. *)
Theorem X1_subscription_adds_exactly (st : WebSocketService) (sid : string)
    (syms : list string) (now : Z) :
  is_Some (connectedClients st !! sid) →
  let st' := (handleSubscription st sid (PArray syms) now).1 in
  ∀ c x,
    (x ∈ interest st' c ↔ x ∈ interest st c ∨ (c = sid ∧ x ∈ syms))
    ∧ (c ∈ index st' x ↔ c ∈ index st x ∨ (c = sid ∧ x ∈ syms))
    ∧ (in_room st' c (room_of x) ↔ in_room st c (room_of x) ∨ (c = sid ∧ x ∈ syms)).
Proof. apply handleSubscription_effect. Qed.

Lemma X1_subscription_adds_exactly_witness :
  let st := (handleConnection empty_service "c1" 0).1 in
  let st' := (handleSubscription st "c1" (PArray ["NIFTY"; "SENSEX"]) 1).1 in
  ("SENSEX" ∈ interest st' "c1" ↔ "SENSEX" ∈ interest st "c1"
                                   ∨ ("c1" = "c1" ∧ "SENSEX" ∈ ["NIFTY"; "SENSEX"])).
Proof.
  intros st st'.
  refine (proj1 (X1_subscription_adds_exactly st "c1" ["NIFTY"; "SENSEX"] 1 _
                   "c1" "SENSEX")).
  vm_compute. eexists. reflexivity.
Defined.

Lemma handleUnsubscription_effect (st : WebSocketService) (sid : string)
    (syms : list string) (now : Z) :
  is_Some (connectedClients st !! sid) →
  let res := handleUnsubscription st sid (PArray syms) now in
  res.2 = [(ToSocket sid, unsubscription_confirmed syms now)]
  ∧ ∀ c x,
    (x ∈ interest res.1 c ↔ x ∈ interest st c ∧ ¬ (c = sid ∧ x ∈ syms))
    ∧ (c ∈ index res.1 x ↔ c ∈ index st x ∧ ¬ (c = sid ∧ x ∈ syms))
    ∧ (in_room res.1 c (room_of x)
       ↔ in_room st c (room_of x) ∧ ¬ (c = sid ∧ x ∈ syms)).
Proof.
  intros [ci Hci] res. unfold res, handleUnsubscription. rewrite Hci.
  cbn [fst snd]. split; [done|]. intros c x. rewrite interest_touch.
  split; [|split].
  - apply interest_unsubscribe_fold.
  - apply (index_unsubscribe_fold sid syms st c x).
  - unfold in_room. cbn [io]. rewrite io_unsubscribe_fold.
    split; intros [Hx Hn]; (split; [done|]); intros [-> Hs]; apply Hn;
      (split; [done|]).
    + by exists x.
    + destruct Hs as (s & Hs & Heq). by apply room_of_inj in Heq as ->.
Qed.


(** X2. For a connected client, [handleUnsubscription] with a list of
    symbols removes exactly the listed symbols for that connection, from
    its interest set, from the subscriber index and from the rooms, and
    emits the [unsubscription-confirmed] event only. *)
Theorem X2_unsubscription_removes_exactly (st : WebSocketService) (sid : string)
    (syms : list string) (now : Z) :
  is_Some (connectedClients st !! sid) →
  let res := handleUnsubscription st sid (PArray syms) now in
  res.2 = [(ToSocket sid, unsubscription_confirmed syms now)]
  ∧ ∀ c x,
    (x ∈ interest res.1 c ↔ x ∈ interest st c ∧ ¬ (c = sid ∧ x ∈ syms))
    ∧ (c ∈ index res.1 x ↔ c ∈ index st x ∧ ¬ (c = sid ∧ x ∈ syms))
    ∧ (in_room res.1 c (room_of x)
       ↔ in_room st c (room_of x) ∧ ¬ (c = sid ∧ x ∈ syms)).
Proof. apply handleUnsubscription_effect. Qed.

Lemma X2_unsubscription_removes_exactly_witness :
  let st := run [Connect "c1" 0; Subscribe "c1" (PArray ["NIFTY"; "SENSEX"]) 1]
                empty_service in
  (handleUnsubscription st "c1" (PArray ["NIFTY"]) 2).2
  = [(ToSocket "c1", unsubscription_confirmed ["NIFTY"] 2)].
Proof.
  intros st.
  refine (proj1 (X2_unsubscription_removes_exactly st "c1" ["NIFTY"] 2 _)).
  vm_compute. eexists. reflexivity.
Defined.

(** X3. Subscribing a connected client to symbols that it does not hold and
    unsubscribing it from the same list gives back the interest sets, the
    membership of the subscriber index and the rooms that there were. *)
Theorem X3_subscribe_then_unsubscribe (st : WebSocketService) (sid : string)
    (syms : list string) (now1 now2 : Z) :
  is_Some (connectedClients st !! sid) →
  (∀ s, s ∈ syms →
        (s ∉ interest st sid) ∧ (sid ∉ index st s)
        ∧ ¬ in_room st sid (room_of s)) →
  let st1 := (handleSubscription st sid (PArray syms) now1).1 in
  let st2 := (handleUnsubscription st1 sid (PArray syms) now2).1 in
  ∀ c x,
    (x ∈ interest st2 c ↔ x ∈ interest st c)
    ∧ (c ∈ index st2 x ↔ c ∈ index st x)
    ∧ (in_room st2 c (room_of x) ↔ in_room st c (room_of x)).
Proof.
  intros Hk Hnew st1 st2 c x.
  assert (Hk1 : is_Some (connectedClients st1 !! sid)).
  { unfold st1, handleSubscription. destruct Hk as [ci Hci]. rewrite Hci.
    cbn [fst connectedClients]. rewrite lookup_alter_eq.
    apply fmap_is_Some, known_subscribe_fold. by rewrite Hci. }
  destruct (handleUnsubscription_effect st1 sid syms now2 Hk1) as [_ H2].
  destruct (H2 c x) as (Hi2 & Hx2 & Hr2).
  destruct (handleSubscription_effect st sid syms now1 Hk c x)
    as (Hi1 & Hx1 & Hr1).
  fold st1 in Hi1, Hx1, Hr1. fold st2 in Hi2, Hx2, Hr2.
  rewrite Hi2, Hx2, Hr2, Hi1, Hx1, Hr1.
  split; [|split]; split.
  - intros [[?|[-> Hs]] Hn]; [done|]. exfalso. by apply Hn.
  - intros Hx. split; [by left|]. intros [-> Hs]. by destruct (Hnew x Hs) as (? & ? & ?).
  - intros [[?|[-> Hs]] Hn]; [done|]. exfalso. by apply Hn.
  - intros Hx. split; [by left|]. intros [-> Hs]. by destruct (Hnew x Hs) as (? & ? & ?).
  - intros [[?|[-> Hs]] Hn]; [done|]. exfalso. by apply Hn.
  - intros Hx. split; [by left|]. intros [-> Hs]. by destruct (Hnew x Hs) as (? & ? & ?).
Qed.

Lemma X3_subscribe_then_unsubscribe_witness :
  let st := (handleConnection empty_service "c1" 0).1 in
  let st1 := (handleSubscription st "c1" (PArray ["NIFTY"]) 1).1 in
  let st2 := (handleUnsubscription st1 "c1" (PArray ["NIFTY"]) 2).1 in
  ("c1" ∈ index st2 "NIFTY" ↔ "c1" ∈ index st "NIFTY").
Proof.
  intros st st1 st2.
  refine (proj1 (proj2 (X3_subscribe_then_unsubscribe st "c1" ["NIFTY"] 1 2 _ _
                          "c1" "NIFTY"))).
  - vm_compute. eexists. reflexivity.
  - intros s Hs. apply list_elem_of_singleton in Hs as ->.
    unfold in_room. repeat split; by_evaluation.
Defined.

Lemma index_remove_twice sid s (m : gmap string (gset string)) :
  index_remove sid s (index_remove sid s m) = index_remove sid s m.
Proof.
  destruct (m !! s) as [clients|] eqn:Hs.
  - destruct (decide (size (clients ∖ {[sid]}) = 0%nat)) as [Hz|Hnz].
    + assert (index_remove sid s m = delete s m) as ->.
      { unfold index_remove. rewrite Hs. by rewrite decide_True. }
      unfold index_remove. by rewrite lookup_delete_eq.
    + assert (index_remove sid s m = <[s := clients ∖ {[sid]}]> m) as ->.
      { unfold index_remove. rewrite Hs. by rewrite decide_False. }
      unfold index_remove. rewrite lookup_insert_eq.
      assert (clients ∖ {[sid]} ∖ {[sid]} = clients ∖ {[sid]}) as -> by set_solver.
      rewrite decide_False by done. by rewrite insert_insert_eq.
  - assert (index_remove sid s m = m) as ->.
    { unfold index_remove. by rewrite Hs. }
    unfold index_remove. by rewrite Hs.
Qed.

(** X4. Unsubscribing a connection from [S] a second time changes neither
    the subscriber index, nor any interest set, nor the rooms. *)
Theorem X4_unsubscribe_idempotent (st : WebSocketService) (sid S : string)
    (now1 now2 : Z) :
  let st1 := (handleUnsubscription st sid (PArray [S]) now1).1 in
  let st2 := (handleUnsubscription st1 sid (PArray [S]) now2).1 in
  subscriptions st2 = subscriptions st1
  ∧ (∀ c, interest st2 c = interest st1 c)
  ∧ io st2 = io st1.
Proof.
  unfold handleUnsubscription.
  destruct (connectedClients st !! sid) as [ci|] eqn:Hci.
  2: { cbn [fst]. by rewrite Hci. }
  cbn [fst fold_left connectedClients unsubscribe_symbol].
  rewrite !lookup_alter_eq, Hci. cbn [fmap option_fmap option_map fst].
  cbn [io subscriptions connectedClients].
  split; [|split].
  - apply index_remove_twice.
  - intros c. unfold interest. cbn [connectedClients].
    destruct (decide (sid = c)) as [<-|Hne].
    + rewrite !lookup_alter_eq, Hci. simpl. set_solver.
    + by rewrite !lookup_alter_ne.
  - unfold leave. set_solver.
Qed.

(** No entry of the subscriber index is an empty set. *)
Lemma index_add_nonempty sid s (m : gmap string (gset string)) :
  (∀ k clients, m !! k = Some clients → clients ≠ ∅) →
  ∀ k clients, index_add sid s m !! k = Some clients → clients ≠ ∅.
Proof.
  intros Hm k clients. rewrite index_add_lookup. case_decide.
  - intros [= <-]. set_solver.
  - apply Hm.
Qed.

Lemma index_remove_nonempty sid s (m : gmap string (gset string)) :
  (∀ k clients, m !! k = Some clients → clients ≠ ∅) →
  ∀ k clients, index_remove sid s m !! k = Some clients → clients ≠ ∅.
Proof.
  intros Hm k clients. unfold index_remove.
  destruct (m !! s) as [old|] eqn:Hs; [|apply Hm].
  destruct (decide (size (old ∖ {[sid]}) = 0%nat)) as [Hz|Hnz].
  - destruct (decide (s = k)) as [<-|Hne].
    + by rewrite lookup_delete_eq.
    + rewrite lookup_delete_ne by done. apply Hm.
  - destruct (decide (s = k)) as [<-|Hne].
    + rewrite lookup_insert_eq. intros [= <-] He. apply Hnz.
      rewrite He. apply size_empty.
    + rewrite lookup_insert_ne by done. apply Hm.
Qed.

Lemma step_index_nonempty st op :
  (∀ k clients, subscriptions st !! k = Some clients → clients ≠ ∅) →
  ∀ k clients, subscriptions (step st op).1 !! k = Some clients → clients ≠ ∅.
Proof.
  intros Hst.
  destruct op as [sid now|sid p now|sid p now|sid]; cbn [step].
  - done.
  - unfold handleSubscription.
    destruct (connectedClients st !! sid); [|done].
    destruct p as [syms| | | | | |]; try done. cbn [fst subscriptions].
    clear -Hst. revert st Hst. induction syms as [|s syms IH]; intros st Hst; [done|].
    cbn [fold_left]. apply IH. cbn [subscribe_symbol subscriptions].
    by apply index_add_nonempty.
  - unfold handleUnsubscription.
    destruct (connectedClients st !! sid); [|done].
    destruct p as [syms| | | | | |]; try done. cbn [fst subscriptions].
    clear -Hst. revert st Hst. induction syms as [|s syms IH]; intros st Hst; [done|].
    cbn [fold_left]. apply IH. cbn [unsubscribe_symbol subscriptions].
    by apply index_remove_nonempty.
  - unfold handleDisconnection. by destruct (connectedClients st !! sid).
Qed.

Lemma run_index_nonempty ops st :
  (∀ k clients, subscriptions st !! k = Some clients → clients ≠ ∅) →
  ∀ k clients, subscriptions (run ops st) !! k = Some clients → clients ≠ ∅.
Proof.
  revert st. induction ops as [|op ops IH]; intros st Hst; [done|].
  rewrite run_cons. apply IH. by apply step_index_nonempty.
Qed.

(** X5. After any sequence of operations on the empty service, the
    subscriber index holds no empty entry, so that [getConnectionStats]
    reports no symbol with zero subscribers: an entry is created with its
    first subscriber and deleted with its last. *)
Theorem X5_no_empty_index_entry (ops : list Op) (now : Z) (symbol : string)
    (n : nat) :
  symbolSubscriptions (getConnectionStats (run ops empty_service) now) !! symbol
  = Some n →
  (0 < n)%nat.
Proof.
  cbn [getConnectionStats symbolSubscriptions]. rewrite lookup_fmap.
  destruct (subscriptions (run ops empty_service) !! symbol) as [clients|] eqn:Hs;
    [|done].
  intros [= <-].
  assert (Hne : clients ≠ ∅).
  { apply (run_index_nonempty ops empty_service) with symbol; [|done].
    intros k c. cbn. by rewrite lookup_empty. }
  destruct (decide (size clients = 0%nat)) as [Hz|Hnz]; [|lia].
  by apply size_empty_inv, leibniz_equiv in Hz.
Qed.

Lemma X5_no_empty_index_entry_witness :
  let st := run [Connect "c1" 0; Subscribe "c1" (PArray ["NIFTY"; "SENSEX"]) 1;
                 Unsubscribe "c1" (PArray ["SENSEX"]) 2] empty_service in
  symbolSubscriptions (getConnectionStats st 3) !! "NIFTY" = Some 1%nat
  ∧ symbolSubscriptions (getConnectionStats st 3) !! "SENSEX" = None
  ∧ (0 < 1)%nat.
Proof.
  intros st. split; [vm_compute; reflexivity|]. split; [vm_compute; reflexivity|].
  apply (X5_no_empty_index_entry
           [Connect "c1" 0; Subscribe "c1" (PArray ["NIFTY"; "SENSEX"]) 1;
            Unsubscribe "c1" (PArray ["SENSEX"]) 2] 3 "NIFTY" 1).
  vm_compute. reflexivity.
Defined.

Lemma step_index_covers st op : index_covers st → index_covers (step st op).1.
Proof.
  intros Hinv c x.
  destruct op as [sid now|sid p now|sid p now|sid]; cbn [step].
  - unfold handleConnection, interest, index. cbn [fst connectedClients subscriptions].
    destruct (decide (sid = c)) as [<-|Hne].
    + rewrite lookup_insert_eq. set_solver.
    + rewrite lookup_insert_ne by done. apply Hinv.
  - unfold handleSubscription.
    destruct (connectedClients st !! sid) as [ci|] eqn:Hci; [|apply Hinv].
    destruct p as [syms| | | | | |]; try apply Hinv.
    cbn [fst]. rewrite interest_touch.
    rewrite interest_subscribe_fold by (by rewrite Hci).
    unfold index at 1. cbn [subscriptions].
    fold (index (fold_left (subscribe_symbol sid) syms st) x).
    rewrite index_subscribe_fold. specialize (Hinv c x). tauto.
  - unfold handleUnsubscription.
    destruct (connectedClients st !! sid) as [ci|] eqn:Hci; [|apply Hinv].
    destruct p as [syms| | | | | |]; try apply Hinv.
    cbn [fst]. rewrite interest_touch, interest_unsubscribe_fold.
    unfold index at 1. cbn [subscriptions].
    fold (index (fold_left (unsubscribe_symbol sid) syms st) x).
    rewrite index_unsubscribe_fold. specialize (Hinv c x). tauto.
  - rewrite handleDisconnection_index.
    unfold handleDisconnection, interest.
    destruct (connectedClients st !! sid) as [ci|] eqn:Hci; [|apply Hinv].
    cbn [fst connectedClients].
    destruct (decide (sid = c)) as [<-|Hne].
    + rewrite lookup_delete_eq. set_solver.
    + rewrite lookup_delete_ne by done. apply Hinv.
Qed.

(** X6. After any sequence of operations on the empty service, with or
    without disconnections and whatever the ids, the subscriber index holds
    the id of a connection for every symbol of its interest set. *)
Theorem X6_index_covers_interest (ops : list Op) (sid symbol : string) :
  symbol ∈ interest (run ops empty_service) sid →
  sid ∈ index (run ops empty_service) symbol.
Proof.
  assert (H : ∀ st, index_covers st → index_covers (run ops st)).
  { induction ops as [|op ops IH]; intros st Hst; [done|].
    rewrite run_cons. by apply IH, step_index_covers. }
  apply H. intros c x. unfold interest. cbn. rewrite lookup_empty. set_solver.
Qed.

Lemma X6_index_covers_interest_witness :
  "c2" ∈ index (run [Connect "c1" 0; Subscribe "c1" (PArray ["NIFTY"]) 1;
                     Disconnect "c1"; Connect "c2" 2;
                     Subscribe "c2" (PArray ["NIFTY"]) 3] empty_service) "NIFTY".
Proof.
  apply X6_index_covers_interest. by_evaluation.
Defined.

(** X7. After a well-formed sequence of operations on the empty service, a
    connection is in the room of a symbol exactly when the symbol is in its
    interest set; a connection that has left is in no such room. *)
Theorem X7_rooms_follow_interest (ops : list Op) (sid symbol : string) :
  well_formed empty_service ops = true →
  in_room (run ops empty_service) sid (room_of symbol)
  ↔ symbol ∈ interest (run ops empty_service) sid.
Proof.
  intros Hwf. by apply run_rooms_consistent; [|apply rooms_consistent_empty].
Qed.

Lemma X7_rooms_follow_interest_witness :
  let st := run [Connect "c1" 0; Subscribe "c1" (PArray ["NIFTY"]) 1;
                 Disconnect "c1"] empty_service in
  ¬ in_room st "c1" (room_of "NIFTY").
Proof.
  intros st Hin.
  apply (X7_rooms_follow_interest
           [Connect "c1" 0; Subscribe "c1" (PArray ["NIFTY"]) 1; Disconnect "c1"]
           "c1" "NIFTY") in Hin; [|reflexivity].
  revert Hin. by_evaluation.
Defined.

(** X8. [handleDisconnection] deletes the record of the connection, takes
    it out of the rooms of its symbols, emits nothing and leaves the records
    and the rooms of the other connections alone; on an id without record,
    hence also when called a second time, it changes nothing. *)
Theorem X8_disconnection (st : WebSocketService) (sid : string) :
  let st' := (handleDisconnection st sid).1 in
  connectedClients st' !! sid = None
  ∧ (∀ c, c ≠ sid → connectedClients st' !! c = connectedClients st !! c)
  ∧ (∀ c room, c ≠ sid → (c, room) ∈ io st' ↔ (c, room) ∈ io st)
  ∧ (∀ s, s ∈ interest st sid → ¬ in_room st' sid (room_of s))
  ∧ (handleDisconnection st sid).2 = []
  ∧ handleDisconnection st' sid = (st', []).
Proof.
  intros st'.
  assert (Hgone : connectedClients st' !! sid = None).
  { unfold st', handleDisconnection.
    destruct (connectedClients st !! sid) eqn:Hci; cbn [fst connectedClients];
      [apply lookup_delete_eq|done]. }
  split; [done|]. unfold st', handleDisconnection.
  destruct (connectedClients st !! sid) as [ci|] eqn:Hci; cbn [fst snd].
  - split; [intros c Hc; cbn [connectedClients]; by rewrite lookup_delete_ne|].
    split.
    { intros c room Hc. cbn [io]. rewrite io_leave_all. split; [tauto|].
      intros Hin. split; [done|]. by intros [-> _]. }
    split.
    { intros s Hs. unfold in_room. cbn [io]. rewrite io_leave_all.
      intros [_ Hn]. apply Hn. split; [done|]. exists s. split; [|done].
      apply elem_of_elements. by rewrite (interest_lookup st sid ci Hci) in Hs. }
    split; [done|]. cbn [connectedClients]. by rewrite lookup_delete_eq.
  - repeat split; try done.
    + intros s Hs. rewrite (interest_unknown st sid Hci) in Hs. set_solver.
    + by rewrite Hci.
Qed.

(** X9. In the statistics of any state of the registry, the number of
    active connections is at most the number of connections, and the two are
    equal when every client was active in the last five minutes. *)
Theorem X9_active_connections_bounded (st : WebSocketService) (now : Z) :
  (activeConnections (getConnectionStats st now)
   ≤ totalConnections (getConnectionStats st now))%nat
  ∧ ((∀ c ci, connectedClients st !! c = Some ci →
              (now - 5 * 60 * 1000 < lastActivity ci)%Z) →
     activeConnections (getConnectionStats st now)
     = totalConnections (getConnectionStats st now)).
Proof.
  cbn [getConnectionStats activeConnections totalConnections].
  set (f := λ (_ : string) (client : ClientInfo) (n : nat),
              if (now - 5 * 60 * 1000 <? lastActivity client)%Z then S n else n).
  split.
  - apply (map_fold_weak_ind (λ n m, (n ≤ size m)%nat) f 0%nat).
    + by rewrite map_size_empty.
    + intros i x m r Hi Hr. rewrite map_size_insert_None by done.
      unfold f. destruct (_ <? _)%Z; lia.
  - apply (map_fold_weak_ind
             (λ n m, (∀ c ci, m !! c = Some ci →
                        (now - 5 * 60 * 1000 < lastActivity ci)%Z) →
                     n = size m) f 0%nat).
    + intros _. by rewrite map_size_empty.
    + intros i x m r Hi Hr Hall. rewrite map_size_insert_None by done.
      unfold f.
      assert ((now - 5 * 60 * 1000 <? lastActivity x)%Z = true) as ->.
      { apply Z.ltb_lt, (Hall i). apply lookup_insert_eq. }
      f_equal. apply Hr. intros c ci Hc. apply (Hall c).
      rewrite lookup_insert_ne; [done|]. intros ->. congruence.
Qed.

(** ** The router and the socket handlers *)

Lemma io_join_all (sid : string) (syms : list string) (r : gset (string * string)) (c : string)
    (room : string) :
  (c, room) ∈ fold_left (λ r symbol, join sid (room_of symbol) r) syms r
  ↔ (c, room) ∈ r ∨ (c = sid ∧ ∃ s, s ∈ syms ∧ room = room_of s).
Proof.
  revert r. induction syms as [|s syms IH]; intros r.
  - cbn [fold_left]. set_solver.
  - cbn [fold_left]. rewrite IH. unfold join. set_solver.
Qed.

(** X10. The socket handlers of the entry point drive the routing by
    themselves: once the [subscribe] handler has run with a list that holds
    a non-empty symbol [S], a notification for [S] reaches the socket,
    starting with its [market-data] event; once the [unsubscribe] handler has
    run with such a list, the notification does not reach it. *)
Theorem X10_socket_handlers_route (st : WebSocketService) (sid S : string)
    (syms : list string) (record : AggregatedRecord) (now : Z) :
  S ∈ syms → S ≠ "" →
  let msg := {| msg_type := "market_data"; msg_symbol := S;
                msg_data := Some record |} in
  (∃ rest,
     delivered (on_subscribe st sid (PArray syms)).1 sid (handleMarketUpdate msg now)
     = market_data S (Some record) (Some now) :: rest)
  ∧ delivered (on_unsubscribe st sid (PArray syms)).1 sid (handleMarketUpdate msg now)
    = [].
Proof.
  intros HS Hne msg. split.
  - destruct (handleMarketUpdate_by_room (on_subscribe st sid (PArray syms)).1
                msg record now sid eq_refl Hne eq_refl) as [Hin _].
    rewrite Hin; [by eexists|].
    unfold subscribed, in_room. cbn [on_subscribe fst io msg_symbol msg].
    apply io_join_all. right. split; [done|]. by exists S.
  - destruct (handleMarketUpdate_by_room (on_unsubscribe st sid (PArray syms)).1
                msg record now sid eq_refl Hne eq_refl) as [_ Hout].
    apply Hout. unfold subscribed, in_room. cbn [on_unsubscribe fst io msg_symbol msg].
    rewrite io_leave_all. intros [_ Hn]. apply Hn. split; [done|]. by exists S.
Qed.

Lemma X10_socket_handlers_route_witness :
  let msg := {| msg_type := "market_data"; msg_symbol := "NIFTY";
                msg_data := Some cached_nifty |} in
  delivered (on_unsubscribe empty_service "c1" (PArray ["NIFTY"])).1 "c1"
            (handleMarketUpdate msg 5) = [].
Proof.
  intros msg.
  refine (proj2 (X10_socket_handlers_route empty_service "c1" "NIFTY" ["NIFTY"]
                   cached_nifty 5 _ _)).
  - apply list_elem_of_singleton. reflexivity.
  - discriminate.
Defined.

(** X11. [handleMarketUpdate] emits nothing for a message whose type is
    not [market_data], whose symbol is empty or whose data is null; what it
    emits, at most three events, goes to the room of the symbol of the
    message and nowhere else. *)
Theorem X11_market_update_guard (msg : BusMessage) (now : Z) :
  (msg_type msg ≠ "market_data" ∨ msg_symbol msg = "" ∨ msg_data msg = None →
   handleMarketUpdate msg now = [])
  ∧ (∀ t e, (t, e) ∈ handleMarketUpdate msg now →
            t = ToRoom (room_of (msg_symbol msg)))
  ∧ (length (handleMarketUpdate msg now) ≤ 3)%nat.
Proof.
  unfold handleMarketUpdate.
  destruct (msg_data msg) as [record|];
    [|split; [done|split; [set_solver|cbn; lia]]].
  destruct (String.eqb (msg_type msg) "market_data") eqn:Ht;
    [|split; [done|split; [set_solver|cbn; lia]]].
  destruct (String.eqb (msg_symbol msg) "") eqn:Hs;
    [split; [done|split; [set_solver|cbn; lia]]|].
  cbn [andb negb]. split; [|split].
  - apply String.eqb_eq in Ht. apply String.eqb_neq in Hs.
    intros [H|[H|H]]; done.
  - intros t e.
    destruct (truthy (technical record)), (truthy (sentiment record));
      cbn [app]; rewrite ?elem_of_cons, elem_of_nil; intros H;
      repeat (destruct H as [H|H]; [by injection H as -> _|]); done.
  - destruct (truthy (technical record)), (truthy (sentiment record)); cbn; lia.
Qed.

(** ** Flags and contents of the store under its methods *)

Section store_facts.
Context {V : Type} (null : V) (stringify : V → string) (parse : string → option V).

Lemma set_flags (r : Redis) now key (value : V) ttl :
  isConnected (RedisService.set stringify r now key value ttl).1 = isConnected r
  ∧ link_up (RedisService.set stringify r now key value ttl).1 = link_up r
  ∧ channel_log (RedisService.set stringify r now key value ttl).1 = channel_log r.
Proof.
  unfold RedisService.set, RedisService.client_set, RedisService.client_setEx.
  destruct (isConnected r) eqn:Hc; [|done].
  destruct (link_up r) eqn:Hl, ttl as [seconds|]; cbn; rewrite ?Hc, ?Hl; try done;
    destruct (seconds =? 0)%Z; cbn; rewrite ?Hc, ?Hl; try done;
    destruct (0 <? seconds)%Z; cbn; rewrite ?Hc, ?Hl; done.
Qed.

Lemma publish_flags (r : Redis) channel (message : V) :
  isConnected (RedisService.publish stringify r channel message).1 = isConnected r
  ∧ link_up (RedisService.publish stringify r channel message).1 = link_up r
  ∧ store (RedisService.publish stringify r channel message).1 = store r.
Proof.
  unfold RedisService.publish, RedisService.client_publish.
  destruct (isConnected r) eqn:Hc; [|done].
  destruct (link_up r) eqn:Hl; cbn; by rewrite ?Hc, ?Hl.
Qed.

Lemma set_failing (r : Redis) now key (value : V) ttl :
  RedisService.failing r →
  store (RedisService.set stringify r now key value ttl).1 = store r.
Proof.
  unfold RedisService.set, RedisService.client_set, RedisService.client_setEx.
  intros [Hc|Hl]; [by rewrite Hc|]. rewrite Hl.
  destruct (isConnected r); [|done].
  destruct ttl as [seconds|]; [destruct (seconds =? 0)%Z|]; done.
Qed.

Lemma publish_failing (r : Redis) channel (message : V) :
  RedisService.failing r →
  channel_log (RedisService.publish stringify r channel message).1 = channel_log r.
Proof.
  unfold RedisService.publish, RedisService.client_publish.
  intros [Hc|Hl]; [by rewrite Hc|]. rewrite Hl. by destruct (isConnected r).
Qed.

Lemma set_other_key (r : Redis) now key (value : V) ttl k :
  k ≠ key →
  store (RedisService.set stringify r now key value ttl).1 !! k = store r !! k.
Proof.
  intros Hk.
  unfold RedisService.set, RedisService.client_set, RedisService.client_setEx.
  destruct (isConnected r); [|done].
  destruct (link_up r), ttl as [seconds|]; cbn; try done;
    try (by rewrite lookup_insert_ne);
    destruct (seconds =? 0)%Z; cbn; try done;
    try (by rewrite lookup_insert_ne);
    destruct (0 <? seconds)%Z; cbn; try done; by rewrite lookup_insert_ne.
Qed.

End store_facts.

(** ** The aggregator *)

Section aggregator_more.
Context (stringify : option AggregatedRecord → string)
        (parse : string → option (option AggregatedRecord))
        (stringify_message : BusMessage → string).

Lemma updateSymbolData_result (env : Env) (svc : MarketDataService)
    (symbol : string) :
  (updateSymbolData stringify stringify_message env svc symbol).2
  = Some (combinedData env symbol).
Proof. done. Qed.

(** The store after the write of [updateSymbolData], and the service after
    its publication. *)
Lemma updateSymbolData_state (env : Env) (svc : MarketDataService)
    (symbol : string) :
  let r1 := (RedisService.set stringify (redisService svc) (now env)
               (cache_key symbol) (Some (combinedData env symbol)) (Some 300)).1 in
  (updateSymbolData stringify stringify_message env svc symbol).1
  = {| redisService :=
         (RedisService.publish stringify_message r1 "market_updates"
            {| msg_type := "market_data"; msg_symbol := symbol;
               msg_data := Some (combinedData env symbol) |}).1;
       isRunning := isRunning svc;
       dataUpdated := dataUpdated svc ++ [(symbol, combinedData env symbol)] |}.
Proof. done. Qed.

Lemma getLatestData_fresh (env : Env) (svc : MarketDataService) (symbol : string) :
  ∃ record,
    (getLatestData stringify parse stringify_message env svc symbol).2 = Some record
    ∧ (now env - lastUpdated record < 30000)%Z.
Proof.
  unfold getLatestData.
  destruct (RedisService.get None parse (redisService svc) (now env)
              (cache_key symbol)).2 as [cached|].
  - destruct (now env - lastUpdated cached <? 30000)%Z eqn:Hage.
    + exists cached. split; [done|lia].
    + exists (combinedData env symbol). split; [done|]. cbn. lia.
  - exists (combinedData env symbol). split; [done|]. cbn. lia.
Qed.

(** X12. [getLatestData] always returns a record, never null, and the
    record it returns is less than 30 seconds old on the clock of the call:
    it is a cached record of that age or the record of a refresh made by the
    call. *)
Theorem X12_latest_data_is_fresh (env : Env) (svc : MarketDataService)
    (symbol : string) :
  ∃ record,
    (getLatestData stringify parse stringify_message env svc symbol).2 = Some record
    ∧ (now env - lastUpdated record < 30000)%Z.
Proof. apply getLatestData_fresh. Qed.

Lemma initial_data_fold_fresh env sid (syms : list string)
    (acc : MarketDataService * list Emit) :
  ∃ out',
    (fold_left (initial_data_step stringify parse stringify_message env sid)
               syms acc).2 = acc.2 ++ out'
    ∧ Forall2 (λ s e, ∃ record,
                 e = (ToSocket sid, market_data s (Some record) None)
                 ∧ (now env - lastUpdated record < 30000)%Z) syms out'.
Proof.
  revert acc. induction syms as [|s syms IH]; intros acc.
  - exists []. split; [by rewrite app_nil_r|constructor].
  - cbn [fold_left].
    destruct (IH (initial_data_step stringify parse stringify_message env sid acc s))
      as (out' & Heq & Hall).
    destruct (getLatestData_fresh env acc.1 s) as (record & Hrec & Hage).
    exists ((ToSocket sid, market_data s (Some record) None) :: out'). split.
    + rewrite Heq. unfold initial_data_step at 1. cbn [snd].
      rewrite Hrec. by rewrite <- app_assoc.
    + constructor; [by exists record|done].
Qed.

(** X13. The [request-initial-data] handler answers a list of symbols with
    one [market-data] event per symbol, in the order of the list, to the
    requesting socket only, each carrying a record less than 30 seconds old;
    it answers a payload that is not a list with nothing, and leaves the
    service as it is. *)
Theorem X13_initial_data (env : Env) (svc : MarketDataService) (sid : string)
    (p : Payload) :
  match p with
  | PArray syms =>
      Forall2 (λ s e, ∃ record,
                 e = (ToSocket sid, market_data s (Some record) None)
                 ∧ (now env - lastUpdated record < 30000)%Z) syms
        (on_request_initial_data stringify parse stringify_message env svc sid p).2
  | _ => on_request_initial_data stringify parse stringify_message env svc sid p
         = (svc, [])
  end.
Proof.
  destruct p as [syms| | | | | |]; try done.
  unfold on_request_initial_data.
  destruct (initial_data_fold_fresh env sid syms (svc, [])) as (out' & Heq & Hall).
  by rewrite Heq.
Qed.

(** X14. A failure of the store does not fail an aggregation:
    [updateSymbolData] returns the same record whatever the state of the
    service, and when the store is not connected or the call on it throws,
    nothing is written or published while the record is still returned and
    announced by [dataUpdated]. *)
Theorem X14_aggregation_survives_store_failure (env : Env)
    (svc : MarketDataService) (symbol : string) :
  RedisService.failing (redisService svc) →
  let res := updateSymbolData stringify stringify_message env svc symbol in
  store (redisService res.1) = store (redisService svc)
  ∧ channel_log (redisService res.1) = channel_log (redisService svc)
  ∧ dataUpdated res.1 = dataUpdated svc ++ [(symbol, combinedData env symbol)]
  ∧ ∀ svc', (updateSymbolData stringify stringify_message env svc' symbol).2 = res.2.
Proof.
  intros Hf res. unfold res.
  rewrite updateSymbolData_state, updateSymbolData_result. cbv zeta.
  cbn [fst snd redisService dataUpdated].
  set (r1 := (RedisService.set stringify (redisService svc) (now env)
                (cache_key symbol) (Some (combinedData env symbol)) (Some 300)).1).
  assert (Hf1 : RedisService.failing r1).
  { destruct (set_flags stringify (redisService svc) (now env) (cache_key symbol)
                (Some (combinedData env symbol)) (Some 300)) as (Hc & Hl & _).
    unfold RedisService.failing, r1. by rewrite Hc, Hl. }
  split; [|split; [|split; [done|done]]].
  - destruct (publish_flags stringify_message r1 "market_updates"
                {| msg_type := "market_data"; msg_symbol := symbol;
                   msg_data := Some (combinedData env symbol) |}) as (_ & _ & ->).
    by apply set_failing.
  - rewrite publish_failing by done. subst r1.
    by destruct (set_flags stringify (redisService svc) (now env) (cache_key symbol)
                   (Some (combinedData env symbol)) (Some 300)) as (_ & _ & ->).
Qed.

End aggregator_more.

Lemma X14_aggregation_survives_store_failure_witness :
  let down := {| redisService :=
                   {| isConnected := true; link_up := false; store := ∅;
                      channel_log := []; listening := []; issued := 0 |};
                 isRunning := true; dataUpdated := [] |} in
  let res := updateSymbolData stringify_cached stringify_bus backend_down down
               "NIFTY" in
  store (redisService res.1) = ∅
  ∧ res.2 = (updateSymbolData stringify_cached stringify_bus backend_down
               warm_service "NIFTY").2.
Proof.
  intros down res.
  destruct (X14_aggregation_survives_store_failure stringify_cached stringify_bus
              backend_down down "NIFTY") as (Hstore & _ & _ & Hsame).
  - right. reflexivity.
  - split; [exact Hstore|]. symmetry. apply Hsame.
Defined.

Section aggregator_compose.
Context (stringify : option AggregatedRecord → string)
        (parse : string → option (option AggregatedRecord))
        (stringify_message : BusMessage → string)
        (parse_message : string → option BusMessage).

Lemma cache_key_inj s1 s2 : cache_key s1 = cache_key s2 → s1 = s2.
Proof. unfold cache_key. intros H. by simplify_eq/=. Qed.

Lemma publish_log (r : Redis) channel (message : BusMessage) :
  channel_log (RedisService.publish stringify_message r channel message).1
  = channel_log r
    ++ (if isConnected r && link_up r
        then [(channel, stringify_message message)] else []).
Proof.
  unfold RedisService.publish, RedisService.client_publish.
  destruct (isConnected r); [|by rewrite app_nil_r].
  destruct (link_up r); [done|by rewrite app_nil_r].
Qed.

(** X15. [updateSymbolData] writes under the key of its symbol only: the
    cache entries of the other symbols, and every other key of the store,
    are as before; it publishes at most one message; and the record it
    returns bears the symbol asked for and the clock of the call as
    [lastUpdated]. *)
Theorem X15_aggregation_frame (env : Env) (svc : MarketDataService)
    (S : string) :
  let res := updateSymbolData stringify stringify_message env svc S in
  (∀ k, k ≠ cache_key S →
        store (redisService res.1) !! k = store (redisService svc) !! k)
  ∧ (∀ other, other ≠ S →
        store (redisService res.1) !! cache_key other
        = store (redisService svc) !! cache_key other)
  ∧ (∃ sent, channel_log (redisService res.1)
             = channel_log (redisService svc) ++ sent
             ∧ (length sent ≤ 1)%nat)
  ∧ (∃ record, res.2 = Some record ∧ symbol record = S
               ∧ lastUpdated record = now env).
Proof.
  intros res.
  assert (Hframe : ∀ k, k ≠ cache_key S →
            store (redisService res.1) !! k = store (redisService svc) !! k).
  { intros k Hk. unfold res. rewrite updateSymbolData_state. cbv zeta.
    cbn [redisService].
    destruct (publish_flags stringify_message
                (RedisService.set stringify (redisService svc) (now env)
                   (cache_key S) (Some (combinedData env S)) (Some 300)).1
                "market_updates"
                {| msg_type := "market_data"; msg_symbol := S;
                   msg_data := Some (combinedData env S) |}) as (_ & _ & ->).
    by apply set_other_key. }
  split; [done|]. split.
  { intros other Ho. apply Hframe. intros Heq. by apply cache_key_inj in Heq. }
  split.
  - unfold res. rewrite updateSymbolData_state. cbv zeta. cbn [redisService].
    rewrite publish_log.
    destruct (set_flags stringify (redisService svc) (now env) (cache_key S)
                (Some (combinedData env S)) (Some 300)) as (_ & _ & ->).
    eexists. split; [done|]. by destruct (_ && _); cbn; lia.
  - exists (combinedData env S). done.
Qed.

(** X16. A read that follows an aggregation on a healthy store, for a
    record that [JSON] writes and reads back: less than 30 seconds later,
    [getLatestData] returns the record of the aggregation and neither writes
    nor publishes; 30 seconds later or more it makes a new aggregation,
    although the entry is kept for 300 seconds. *)
Theorem X16_read_after_aggregation (env later : Env) (svc : MarketDataService)
    (S : string) :
  RedisService.healthy (redisService svc) →
  parse (stringify (Some (combinedData env S))) = Some (Some (combinedData env S)) →
  stringify (Some (combinedData env S)) ≠ "" →
  let svc1 := (updateSymbolData stringify stringify_message env svc S).1 in
  let res := getLatestData stringify parse stringify_message later svc1 S in
  ((now later - now env < 30000)%Z →
     res.2 = Some (combinedData env S)
     ∧ store (redisService res.1) = store (redisService svc1)
     ∧ channel_log (redisService res.1) = channel_log (redisService svc1))
  ∧ ((30000 <= now later - now env)%Z → res.2 = Some (combinedData later S)).
Proof.
  intros Hr Hround Hne svc1 res.
  assert (Hr1 : RedisService.healthy (redisService svc1)).
  { unfold svc1. rewrite updateSymbolData_state. cbv zeta. cbn [redisService].
    destruct (publish_flags stringify_message
                (RedisService.set stringify (redisService svc) (now env)
                   (cache_key S) (Some (combinedData env S)) (Some 300)).1
                "market_updates"
                {| msg_type := "market_data"; msg_symbol := S;
                   msg_data := Some (combinedData env S) |}) as (Hc & Hl & _).
    destruct (set_flags stringify (redisService svc) (now env) (cache_key S)
                (Some (combinedData env S)) (Some 300)) as (Hc' & Hl' & _).
    unfold RedisService.healthy. rewrite Hc, Hl, Hc', Hl'. exact Hr. }
  assert (Hentry : store (redisService svc1) !! cache_key S
                   = Some (stringify (Some (combinedData env S)),
                           Some (now env + 300 * 1000)%Z)).
  { unfold svc1. rewrite updateSymbolData_state. cbv zeta. cbn [redisService].
    destruct (publish_flags stringify_message
                (RedisService.set stringify (redisService svc) (now env)
                   (cache_key S) (Some (combinedData env S)) (Some 300)).1
                "market_updates"
                {| msg_type := "market_data"; msg_symbol := S;
                   msg_data := Some (combinedData env S) |}) as (_ & _ & ->).
    rewrite (set_healthy_ttl stringify (redisService svc) (now env) (cache_key S)
               (Some (combinedData env S)) 300 Hr) by lia.
    cbn [fst store RedisService.with_store]. apply lookup_insert_eq. }
  destruct Hr1 as [Hc1 Hl1].
  unfold res, getLatestData, RedisService.get, RedisService.client_get.
  rewrite Hc1, Hl1. cbn [fst snd]. rewrite Hentry.
  unfold RedisService.live. cbn [fst snd].
  apply String.eqb_neq in Hne.
  split; intros Hage.
  - assert ((now later <=? now env + 300 * 1000)%Z = true) as -> by lia.
    rewrite Hne, Hround. cbn [default from_option Datatypes.id lastUpdated combinedData].
    assert ((now later - now env <? 30000)%Z = true) as -> by lia.
    done.
  - destruct (now later <=? now env + 300 * 1000)%Z; [|done].
    rewrite Hne, Hround. cbn [default from_option Datatypes.id lastUpdated combinedData].
    assert ((now later - now env <? 30000)%Z = false) as -> by lia.
    done.
Qed.

End aggregator_compose.

Lemma X16_read_after_aggregation_witness :
  let svc1 := (updateSymbolData stringify_cached stringify_bus backend_down
                 cold_service "NIFTY").1 in
  (getLatestData stringify_cached parse_aggregated stringify_bus
     (backend_down_at 1029999) svc1 "NIFTY").2
  = Some (combinedData backend_down "NIFTY")
  ∧ (getLatestData stringify_cached parse_aggregated stringify_bus
       (backend_down_at 1030000) svc1 "NIFTY").2
    = Some (combinedData (backend_down_at 1030000) "NIFTY").
Proof.
  intros svc1. split.
  - destruct (X16_read_after_aggregation stringify_cached parse_aggregated
                stringify_bus backend_down (backend_down_at 1029999)
                cold_service "NIFTY") as [Hhit _].
    + split; reflexivity.
    + reflexivity.
    + discriminate.
    + apply Hhit. cbn. lia.
  - destruct (X16_read_after_aggregation stringify_cached parse_aggregated
                stringify_bus backend_down (backend_down_at 1030000)
                cold_service "NIFTY") as [_ Hmiss].
    + split; reflexivity.
    + reflexivity.
    + discriminate.
    + apply Hmiss. cbn. lia.
Defined.

Section bus.
Context (stringify : option AggregatedRecord → string)
        (stringify_message : BusMessage → string)
        (parse_message : string → option BusMessage).

(** X17. From the aggregator to the viewer: on a healthy store, for a
    non-empty symbol and a message that [JSON] writes and reads back, the
    last message that [updateSymbolData] leaves on the channel
    [market_updates], once handed to the callback of the subscription, is
    delivered to a connection in the room of the symbol as one
    [market-data] event carrying the aggregated record, followed by a
    [technical-update] and a [sentiment-update] exactly for the facets that
    are truthy. *)
Theorem X17_published_record_is_routed (env : Env) (svc : MarketDataService)
    (S : string) (st : WebSocketService) (sid : string) (at_time : Z) :
  let record := combinedData env S in
  let msg := {| msg_type := "market_data"; msg_symbol := S;
                msg_data := Some record |} in
  RedisService.healthy (redisService svc) → S ≠ "" →
  parse_message (stringify_message msg) = Some msg →
  subscribed st sid S →
  ∃ text,
    last (channel_log
            (redisService (updateSymbolData stringify stringify_message env svc S).1))
    = Some ("market_updates", text)
    ∧ delivered st sid (on_market_updates parse_message text at_time)
      = [market_data S (Some record) (Some at_time)]
        ++ (if truthy (technical record)
            then [technical_update S (technical record) at_time] else [])
        ++ (if truthy (sentiment record)
            then [sentiment_update S (sentiment record) at_time] else []).
Proof.
  intros record msg [Hc Hl] HS Hround Hsub.
  exists (stringify_message msg). split.
  - rewrite updateSymbolData_state. cbv zeta. cbn [redisService].
    rewrite publish_log.
    destruct (set_flags stringify (redisService svc) (now env) (cache_key S)
                (Some (combinedData env S)) (Some 300)) as (-> & -> & _).
    rewrite Hc, Hl. cbn [andb]. by rewrite last_snoc.
  - unfold on_market_updates. rewrite Hround.
    by apply (handleMarketUpdate_by_room st msg record at_time sid).
Qed.

End bus.

Lemma X17_published_record_is_routed_witness :
  let st := (on_subscribe empty_service "c1" (PArray ["NIFTY"])).1 in
  ∃ text,
    last (channel_log
            (redisService (updateSymbolData stringify_cached stringify_bus
                             backend_down cold_service "NIFTY").1))
    = Some ("market_updates", text)
    ∧ delivered st "c1" (on_market_updates parse_bus text 1000001)
      = [market_data "NIFTY" (Some (combinedData backend_down "NIFTY"))
           (Some 1000001)].
Proof.
  intros st.
  destruct (X17_published_record_is_routed stringify_cached stringify_bus
              parse_bus backend_down cold_service "NIFTY" st "c1" 1000001)
    as (text & Hlast & Hdel).
  - split; reflexivity.
  - discriminate.
  - reflexivity.
  - unfold subscribed, in_room. by_evaluation.
  - exists text. split; [exact Hlast|exact Hdel].
Defined.

(** X18. Each of the two optional facets of the record returned by
    [updateSymbolData] depends on its own endpoint only: the technical facet
    is null exactly when the technical endpoint rejects or answers a falsy
    body, and is the body otherwise; likewise for the sentiment facet. *)
Theorem X18_optional_facets
    (stringify : option AggregatedRecord → string)
    (stringify_message : BusMessage → string)
    (env : Env) (svc : MarketDataService) (S : string) :
  ∃ record,
    (updateSymbolData stringify stringify_message env svc S).2 = Some record
    ∧ (is_null (technical record) = true
       ↔ match technical_api env S with
         | Replied data => truthy data = false
         | Rejected => True
         end)
    ∧ (is_null (sentiment record) = true
       ↔ match sentiment_api env S with
         | Replied data => truthy data = false
         | Rejected => True
         end)
    ∧ (∀ data, technical_api env S = Replied data → truthy data = true →
               technical record = data)
    ∧ (∀ data, sentiment_api env S = Replied data → truthy data = true →
               sentiment record = data).
Proof.
  exists (combinedData env S). split; [done|].
  cbn [combinedData technical sentiment]. unfold fetchTechnicalData, fetchSentimentData.
  split; [|split; [|split]].
  - destruct (technical_api env S) as [data|]; [|done].
    destruct (truthy data) eqn:Hd; cbn [value_or_null]; [|done].
    by rewrite (truthy_not_null data Hd).
  - destruct (sentiment_api env S) as [data|]; [|done].
    destruct (truthy data) eqn:Hd; cbn [value_or_null]; [|done].
    by rewrite (truthy_not_null data Hd).
  - by intros data -> ->.
  - by intros data -> ->.
Qed.

(** ** The synthetic sample, for every symbol *)








(** ** More of the cache store *)

Section store_more.
Context {V : Type} (null : V) (stringify : V → string) (parse : string → option V).

Lemma exists_healthy (r : Redis) now key :
  RedisService.healthy r →
  (RedisKeys.exists_ r now key).2
  = match store r !! key with
    | Some entry => RedisService.live now entry
    | None => false
    end.
Proof.
  intros [Hc Hl]. unfold RedisKeys.exists_, RedisKeys.client_exists.
  rewrite Hc, Hl. cbn [fst snd].
  destruct (store r !! key) as [entry|]; [|done].
  by destruct (RedisService.live now entry).
Qed.

(** X21. A [set] without expiry, [expireInSeconds] omitted or 0, on a
    healthy store and for a value that [JSON] writes and reads back, stores
    the value for good: whatever the key held and however late the read,
    [get] returns the value and [exists] answers true. *)
Theorem X21_set_without_expiry (r : Redis) (now : Z) (key : string) (value : V)
    (ttl : option Z) :
  RedisService.healthy r → ttl = None ∨ ttl = Some 0%Z →
  parse (stringify value) = Some value → stringify value ≠ "" →
  let r1 := (RedisService.set stringify r now key value ttl).1 in
  (RedisService.set stringify r now key value ttl).2 = true
  ∧ ∀ later,
      (RedisService.get null parse r1 later key).2 = value
      ∧ (RedisKeys.exists_ r1 later key).2 = true.
Proof.
  intros Hr Httl Hround Hne r1.
  assert (Hset : RedisService.set stringify r now key value ttl
                 = (RedisService.with_store
                      (<[key := (stringify value, None)]> (store r))
                      (RedisService.issue r), true)).
  { destruct Hr as [Hc Hl]. unfold RedisService.set, RedisService.client_set.
    rewrite Hc, Hl. by destruct Httl as [-> | ->]. }
  unfold r1. rewrite Hset. cbn [fst snd]. split; [done|]. intros later.
  assert (Hr1 : RedisService.healthy
                  (RedisService.with_store
                     (<[key := (stringify value, None)]> (store r))
                     (RedisService.issue r))) by exact Hr.
  rewrite (get_healthy null parse _ later key Hr1), (exists_healthy _ later key Hr1).
  cbn [store RedisService.with_store]. rewrite lookup_insert_eq.
  unfold RedisService.live. cbn [fst snd].
  apply String.eqb_neq in Hne. by rewrite Hne, Hround.
Qed.

(** X22. On a healthy store [del] answers true whether the key was there
    or not, removes the key and nothing else: afterwards a [get] of the key
    returns [null] and [exists] answers false, at any time, and the reads of
    the other keys are as before. *)
Theorem X22_del_removes_the_key (r : Redis) (key : string) :
  RedisService.healthy r →
  let r1 := (RedisService.del r key).1 in
  (RedisService.del r key).2 = true
  ∧ store r1 = delete key (store r)
  ∧ (∀ later, (RedisService.get null parse r1 later key).2 = null
              ∧ (RedisKeys.exists_ r1 later key).2 = false)
  ∧ (∀ later k, k ≠ key →
       (RedisService.get null parse r1 later k).2
       = (RedisService.get null parse r later k).2).
Proof.
  intros Hr r1.
  assert (Hdel : RedisService.del r key
                 = (RedisService.with_store (delete key (store r))
                      (RedisService.issue r), true)).
  { destruct Hr as [Hc Hl]. unfold RedisService.del, RedisService.client_del.
    by rewrite Hc, Hl. }
  unfold r1. rewrite Hdel. cbn [fst snd].
  assert (Hr1 : RedisService.healthy
                  (RedisService.with_store (delete key (store r))
                     (RedisService.issue r))) by exact Hr.
  split; [done|]. split; [done|]. split.
  - intros later.
    rewrite (get_healthy null parse _ later key Hr1), (exists_healthy _ later key Hr1).
    cbn [store RedisService.with_store]. by rewrite lookup_delete_eq.
  - intros later k Hk.
    rewrite (get_healthy null parse _ later k Hr1), (get_healthy null parse _ later k Hr).
    cbn [store RedisService.with_store]. by rewrite lookup_delete_ne.
Qed.

(** X23. [exists] on a healthy store answers true exactly when the store
    holds the key and its expiry has not passed; under a connectivity
    failure it answers false, like for a missing key; and whenever it
    answers false on a healthy store, [get] returns [null]. *)
Theorem X23_exists (r : Redis) (now : Z) (key : string) :
  (RedisService.healthy r →
     ((RedisKeys.exists_ r now key).2 = true
      ↔ ∃ entry, store r !! key = Some entry
                 ∧ RedisService.live now entry = true)
     ∧ ((RedisKeys.exists_ r now key).2 = false →
        (RedisService.get null parse r now key).2 = null))
  ∧ (RedisService.failing r → (RedisKeys.exists_ r now key).2 = false).
Proof.
  split.
  - intros Hr. rewrite (exists_healthy r now key Hr), (get_healthy null parse r now key Hr).
    destruct (store r !! key) as [entry|].
    + split.
      * split; [intros H; by exists entry|]. by intros (e & [= <-] & H).
      * by intros ->.
    + split; [|done]. split; [done|]. by intros (e & H & _).
  - unfold RedisKeys.exists_, RedisKeys.client_exists.
    intros [Hc|Hl]; [by rewrite Hc|]. rewrite Hl. by destruct (isConnected r).
Qed.

(** X24. A key can be held and still read as missing: when the text under
    the key is empty, or is a text that [JSON.parse] rejects, [get] on a
    healthy store returns [null] although [exists] answers true. *)
Theorem X24_unreadable_entry (r : Redis) (now : Z) (key text : string)
    (expiry : option Z) :
  RedisService.healthy r →
  store r !! key = Some (text, expiry) →
  RedisService.live now (text, expiry) = true →
  text = "" ∨ parse text = None →
  (RedisService.get null parse r now key).2 = null
  ∧ (RedisKeys.exists_ r now key).2 = true.
Proof.
  intros Hr Hs Hlive Hbad.
  rewrite (get_healthy null parse r now key Hr), (exists_healthy r now key Hr), Hs, Hlive.
  split; [|done]. cbn [fst].
  destruct Hbad as [-> | Hp]; [done|]. rewrite Hp.
  by destruct (String.eqb text "").
Qed.

End store_more.

Lemma X21_set_without_expiry_witness :
  let r1 := (RedisService.set stringify_literal empty_store 0 "flag"
               (JBool true) (Some 0)).1 in
  (RedisService.get JNull parse_literal r1 1000000000000 "flag").2 = JBool true.
Proof.
  intros r1.
  destruct (X21_set_without_expiry JNull stringify_literal parse_literal
              empty_store 0 "flag" (JBool true) (Some 0)) as [_ Hget].
  - split; reflexivity.
  - right. reflexivity.
  - reflexivity.
  - discriminate.
  - apply Hget.
Defined.

Lemma X22_del_removes_the_key_witness :
  (RedisService.del garbled_store "flag").2 = true
  ∧ (RedisKeys.exists_ (RedisService.del garbled_store "flag").1 5 "flag").2 = false.
Proof.
  destruct (X22_del_removes_the_key JNull parse_literal garbled_store "flag")
    as (Hok & _ & Hgone & _).
  - split; reflexivity.
  - split; [exact Hok|apply Hgone].
Defined.

Lemma X24_unreadable_entry_witness :
  (RedisService.get JNull parse_literal garbled_store 5 "flag").2 = JNull
  ∧ (RedisKeys.exists_ garbled_store 5 "flag").2 = true.
Proof.
  apply (X24_unreadable_entry JNull parse_literal garbled_store 5 "flag" "oops" None).
  - split; reflexivity.
  - reflexivity.
  - reflexivity.
  - right. reflexivity.
Defined.

(** ** The cycle of the aggregator *)

Section cycle_facts.
Context (stringify : option AggregatedRecord → string)
        (parse : string → option (option AggregatedRecord))
        (stringify_message : BusMessage → string).

Lemma updateSymbolData_healthy (env : Env) (svc : MarketDataService) (S : string) :
  RedisService.healthy (redisService svc) →
  let svc1 := (updateSymbolData stringify stringify_message env svc S).1 in
  RedisService.healthy (redisService svc1)
  ∧ isRunning svc1 = isRunning svc
  ∧ store (redisService svc1) !! cache_key S
    = Some (stringify (Some (combinedData env S)), Some (now env + 300 * 1000)%Z)
  ∧ (∀ k, k ≠ cache_key S →
          store (redisService svc1) !! k = store (redisService svc) !! k)
  ∧ length (channel_log (redisService svc1))
    = Datatypes.S (length (channel_log (redisService svc))).
Proof.
  intros Hr svc1. unfold svc1. rewrite updateSymbolData_state. cbv zeta.
  cbn [redisService isRunning].
  destruct (publish_flags stringify_message
              (RedisService.set stringify (redisService svc) (now env)
                 (cache_key S) (Some (combinedData env S)) (Some 300)).1
              "market_updates"
              {| msg_type := "market_data"; msg_symbol := S;
                 msg_data := Some (combinedData env S) |}) as (Hc & Hl & Hst).
  destruct (set_flags stringify (redisService svc) (now env) (cache_key S)
              (Some (combinedData env S)) (Some 300)) as (Hc' & Hl' & Hlog).
  split; [|split; [done|split; [|split]]].
  - unfold RedisService.healthy. rewrite Hc, Hl, Hc', Hl'. exact Hr.
  - rewrite Hst.
    rewrite (set_healthy_ttl stringify (redisService svc) (now env) (cache_key S)
               (Some (combinedData env S)) 300 Hr) by lia.
    cbn [fst store RedisService.with_store]. apply lookup_insert_eq.
  - intros k Hk. rewrite Hst. by apply set_other_key.
  - rewrite (publish_log stringify_message), Hc', Hl', Hlog.
    destruct Hr as [-> ->]. cbn [andb]. rewrite length_app. cbn. lia.
Qed.

Lemma cycle_fold (env : Env) (symbols : list string) (svc : MarketDataService) :
  RedisService.healthy (redisService svc) →
  let svc' := fold_left
                (λ s symbol, fst (updateSymbolData stringify stringify_message env s symbol))
                symbols svc in
  (∀ S, S ∈ symbols →
        store (redisService svc') !! cache_key S
        = Some (stringify (Some (combinedData env S)), Some (now env + 300 * 1000)%Z))
  ∧ (∀ k, (∀ S, S ∈ symbols → k ≠ cache_key S) →
          store (redisService svc') !! k = store (redisService svc) !! k)
  ∧ length (channel_log (redisService svc'))
    = (length (channel_log (redisService svc)) + length symbols)%nat.
Proof.
  revert svc. induction symbols as [|S0 rest IH]; intros svc Hr.
  - cbn [fold_left]. split; [set_solver|]. split; [done|]. cbn. lia.
  - cbn [fold_left].
    destruct (updateSymbolData_healthy env svc S0 Hr) as (Hr1 & _ & Hentry & Hframe & Hlen).
    destruct (IH _ Hr1) as (Hin & Hout & Hlog). cbv zeta in Hin, Hout, Hlog.
    split; [|split].
    + intros S HS. destruct (decide (S ∈ rest)) as [Hrest|Hrest]; [by apply Hin|].
      apply elem_of_cons in HS as [->|HS]; [|done].
      rewrite Hout; [done|]. intros S HS Heq. apply cache_key_inj in Heq as ->. done.
    + intros k Hk. rewrite Hout.
      * apply Hframe. apply Hk. by left.
      * intros S HS. apply Hk. by right.
    + rewrite Hlog, Hlen. cbn [length]. lia.
Qed.

(** X25. One cycle of the aggregator: when the service is not running
    [updateAllSymbols] changes nothing; when it runs on a healthy store, it
    leaves under the key of every configured symbol the record aggregated
    for that symbol, to expire 300 seconds later, leaves every other key
    alone and publishes one message per configured symbol. *)
Theorem X25_cycle (env : Env) (symbols : list string) (svc : MarketDataService) :
  (isRunning svc = false →
   updateAllSymbols stringify stringify_message env symbols svc = svc)
  ∧ (isRunning svc = true → RedisService.healthy (redisService svc) →
     let svc' := updateAllSymbols stringify stringify_message env symbols svc in
     (∀ S, S ∈ symbols →
           store (redisService svc') !! cache_key S
           = Some (stringify (Some (combinedData env S)),
                   Some (now env + 300 * 1000)%Z))
     ∧ (∀ k, (∀ S, S ∈ symbols → k ≠ cache_key S) →
             store (redisService svc') !! k = store (redisService svc) !! k)
     ∧ length (channel_log (redisService svc'))
       = (length (channel_log (redisService svc)) + length symbols)%nat).
Proof.
  unfold updateAllSymbols. split.
  - by intros ->.
  - intros -> Hr. by apply cycle_fold.
Qed.

(** X26. [stop()] halts the cycle, not the reads: on a stopped service
    [updateAllSymbols] changes nothing, while [getLatestData] for a symbol
    without cache entry still aggregates, returns the record and, on a
    healthy store, writes it under the key of the symbol. *)
Theorem X26_stop (env : Env) (symbols : list string) (svc : MarketDataService)
    (S : string) :
  RedisService.healthy (redisService svc) →
  store (redisService svc) !! cache_key S = None →
  updateAllSymbols stringify stringify_message env symbols (stop svc) = stop svc
  ∧ (getLatestData stringify parse stringify_message env (stop svc) S).2
    = Some (combinedData env S)
  ∧ store (redisService
             (getLatestData stringify parse stringify_message env (stop svc) S).1)
    !! cache_key S
    = Some (stringify (Some (combinedData env S)), Some (now env + 300 * 1000)%Z).
Proof.
  intros Hr Hnone. split; [done|].
  unfold getLatestData, RedisService.get, RedisService.client_get.
  cbn [stop redisService isRunning dataUpdated].
  destruct Hr as [Hc Hl]. rewrite Hc, Hl. cbn [fst snd]. rewrite Hnone.
  split; [done|].
  apply (updateSymbolData_healthy env
           {| redisService := RedisService.issue (redisService svc);
              isRunning := false; dataUpdated := dataUpdated svc |} S).
  by split.
Qed.

End cycle_facts.

Lemma X25_cycle_witness :
  let svc' := updateAllSymbols stringify_cached stringify_bus backend_down
                ["NIFTY"; "SENSEX"; "BANKNIFTY"] cold_service in
  store (redisService svc') !! cache_key "SENSEX"
  = Some ("record:SENSEX", Some 1300000%Z)
  ∧ length (channel_log (redisService svc')) = 3%nat.
Proof.
  intros svc'.
  destruct (X25_cycle stringify_cached stringify_bus backend_down
              ["NIFTY"; "SENSEX"; "BANKNIFTY"] cold_service) as [_ Hrun].
  destruct Hrun as (Hin & _ & Hlen); [reflexivity|split; reflexivity|].
  split; [|exact Hlen].
  apply (Hin "SENSEX"). set_solver.
Defined.

Lemma X26_stop_witness :
  (getLatestData stringify_cached parse_cached stringify_bus backend_down
     (stop cold_service) "NIFTY").2
  = Some (combinedData backend_down "NIFTY").
Proof.
  refine (proj1 (proj2 (X26_stop stringify_cached parse_cached stringify_bus
                          backend_down ["NIFTY"] cold_service "NIFTY" _ _))).
  - split; reflexivity.
  - reflexivity.
Defined.

(** ** Technical indicators *)


Lemma inject_nat_pos (n : nat) : (0 < n)%nat → (0 < inject_Z (Z.of_nat n))%Q.
Proof. intros H. change 0%Q with (inject_Z 0). rewrite <- Zlt_Qlt. lia. Qed.









Lemma gains_losses_step_nonneg (prices : list Q) (acc : Q * Q) (i : nat) :
  (0 <= acc.1)%Q → (0 <= acc.2)%Q →
  let change := (nth i prices 0 - nth (i - 1) prices 0)%Q in
  let acc' := if negb (Qle_bool change 0)
              then ((acc.1 + change)%Q, acc.2)
              else (acc.1, (acc.2 - change)%Q) in
  (0 <= acc'.1)%Q ∧ (0 <= acc'.2)%Q.
Proof.
  intros H1 H2 change acc'. unfold acc'.
  destruct (Qle_bool change 0) eqn:Hc; cbn [negb fst snd].
  - apply Qle_bool_iff in Hc. split; lra.
  - assert (¬ (change <= 0)%Q) as Hn.
    { intros Hle. apply Qle_bool_iff in Hle. congruence. }
    apply Qnot_le_lt in Hn. split; lra.
Qed.

Lemma gains_losses_nonneg (prices : list Q) (period : nat) :
  (0 <= (gains_losses prices period).1)%Q ∧ (0 <= (gains_losses prices period).2)%Q.
Proof.
  unfold gains_losses.
  assert (H : ∀ (l : list nat) (acc : Q * Q),
            (0 <= acc.1)%Q → (0 <= acc.2)%Q →
            (0 <= (fold_left
                     (λ (acc : Q * Q) (i : nat),
                        let change := (nth i prices 0 - nth (i - 1) prices 0)%Q in
                        if negb (Qle_bool change 0)
                        then ((acc.1 + change)%Q, acc.2)
                        else (acc.1, (acc.2 - change)%Q)) l acc).1)%Q
            ∧ (0 <= (fold_left
                       (λ (acc : Q * Q) (i : nat),
                          let change := (nth i prices 0 - nth (i - 1) prices 0)%Q in
                          if negb (Qle_bool change 0)
                          then ((acc.1 + change)%Q, acc.2)
                          else (acc.1, (acc.2 - change)%Q)) l acc).2)%Q).
  { induction l as [|i l IH]; intros acc H1 H2; [done|].
    cbn [fold_left]. apply IH; by apply gains_losses_step_nonneg. }
  apply H; cbn; lra.
Qed.

Lemma fold_left_agree {A B : Type} (f g : A → B → A) (l : list B) (a : A) :
  (∀ x y, y ∈ l → f x y = g x y) → fold_left f l a = fold_left g l a.
Proof.
  revert a. induction l as [|y l IH]; intros a H; [done|].
  cbn [fold_left]. rewrite H by (by left). apply IH. intros x z Hz. apply H. by right.
Qed.

Lemma gains_losses_prefix (prices more : list Q) (period : nat) :
  (period < length prices)%nat →
  gains_losses (prices ++ more) period = gains_losses prices period.
Proof.
  intros Hlen. unfold gains_losses. apply fold_left_agree.
  intros acc i Hi. apply list_elem_of_In, in_seq in Hi.
  rewrite !(app_nth1 prices more) by lia. done.
Qed.

(** X29. [calculateRSI] returns [null] exactly when there are fewer than
    [period + 1] prices; a number that it returns lies between 0 and 100;
    and it reads the first [period + 1] prices only: the prices that follow
    do not change the result. *)
Theorem X29_rsi (prices : list Q) (period : nat) :
  (calculateRSI prices period = Null ↔ (length prices < period + 1)%nat)
  ∧ (∀ v, calculateRSI prices period = Value v → (0 <= v)%Q ∧ (v <= 100)%Q)
  ∧ (∀ more, (period + 1 ≤ length prices)%nat →
             calculateRSI (prices ++ more) period = calculateRSI prices period).
Proof.
  split; [|split].
  - unfold calculateRSI.
    destruct (length prices <? period + 1)%nat eqn:Hlt.
    + apply Nat.ltb_lt in Hlt. done.
    + apply Nat.ltb_ge in Hlt.
      destruct (period =? 0)%nat; [split; (done || lia)|].
      cbv zeta. destruct (Qeq_bool _ 0); [destruct (Qeq_bool _ 0)|];
        split; (done || lia).
  - intros v. unfold calculateRSI.
    destruct (length prices <? period + 1)%nat; [done|].
    destruct (period =? 0)%nat eqn:Hp; [done|]. apply Nat.eqb_neq in Hp.
    cbv zeta.
    destruct (gains_losses_nonneg prices period) as [Hg Hl].
    pose proof (inject_nat_pos period ltac:(lia)) as Hn.
    set (n := inject_Z (Z.of_nat period)) in *.
    set (gains := (gains_losses prices period).1) in *.
    set (losses := (gains_losses prices period).2) in *.
    assert (HaG : (0 <= gains / n)%Q) by (apply Qle_shift_div_l; lra).
    assert (HaL : (0 <= losses / n)%Q) by (apply Qle_shift_div_l; lra).
    set (avgGain := (gains / n)%Q) in *. set (avgLoss := (losses / n)%Q) in *.
    destruct (Qeq_bool avgLoss 0) eqn:HL.
    + destruct (Qeq_bool avgGain 0); [done|]. intros [= <-].
      destruct (round2_between 100 10000 10000) as [H1 H2]; try (unfold inject_Z; lra); change (inject_Z 10000) with 10000%Q in *; change (inject_Z 0) with 0%Q in *; lra.
    + intros [= <-]. apply Qeq_bool_neq in HL.
      assert (HposL : (0 < avgLoss)%Q).
      { destruct (Qlt_le_dec 0 avgLoss) as [|Hle]; [done|].
        exfalso. apply HL. lra. }
      assert (Hrs : (0 <= avgGain / avgLoss)%Q) by (apply Qle_shift_div_l; lra).
      set (rs := (avgGain / avgLoss)%Q) in *.
      assert (Hx1 : (0 <= 100 / (1 + rs))%Q) by (apply Qle_shift_div_l; lra).
      assert (Hx2 : (100 / (1 + rs) <= 100)%Q) by (apply Qle_shift_div_r; lra).
      set (x := (100 / (1 + rs))%Q) in *.
      destruct (round2_between (100 - x) 0 10000) as [H1 H2]; try (unfold inject_Z; lra); change (inject_Z 10000) with 10000%Q in *; change (inject_Z 0) with 0%Q in *; lra.
  - intros more Hlen. unfold calculateRSI.
    rewrite length_app.
    assert ((length prices + length more <? period + 1)%nat = false) as ->
      by (apply Nat.ltb_ge; lia).
    assert ((length prices <? period + 1)%nat = false) as ->
      by (apply Nat.ltb_ge; lia).
    by rewrite gains_losses_prefix by lia.
Qed.

(** ** The registry without disconnections *)

(** X30. As long as no connection leaves, the two sides of the registry
    agree: after a well-formed sequence of connections, subscriptions and
    unsubscriptions on the empty service, the id of a connection is in the
    index entry of a symbol exactly when the symbol is in its interest set. *)
Theorem X30_consistent_without_disconnection (ops : list Op) (sid S : string) :
  well_formed empty_service ops = true →
  forallb no_disconnect ops = true →
  sid ∈ index (run ops empty_service) S ↔ S ∈ interest (run ops empty_service) sid.
Proof.
  intros Hwf Hnd.
  by apply run_index_consistent; [| |apply index_consistent_empty].
Qed.

Lemma X30_consistent_without_disconnection_witness :
  let st := run [Connect "c1" 0; Subscribe "c1" (PArray ["NIFTY"; "SENSEX"]) 1;
                 Connect "c2" 2; Subscribe "c2" (PArray ["NIFTY"]) 3;
                 Unsubscribe "c1" (PArray ["NIFTY"]) 4] empty_service in
  "c1" ∈ index st "NIFTY" ↔ "NIFTY" ∈ interest st "c1".
Proof.
  intros st.
  apply (X30_consistent_without_disconnection
           [Connect "c1" 0; Subscribe "c1" (PArray ["NIFTY"; "SENSEX"]) 1;
            Connect "c2" 2; Subscribe "c2" (PArray ["NIFTY"]) 3;
            Unsubscribe "c1" (PArray ["NIFTY"]) 4] "c1" "NIFTY");
    reflexivity.
Defined.
